(** * funasr_server: streaming session protocol and transcript aggregation

    A shallow embedding of [src/server.py] ([ASRServer.process_audio],
    [ASRServer.recognize_audio]) and of [src/client.py]
    ([ASRClient.start_recording], [ASRClient.receive_results],
    [ASRClient._display_results]), followed by the properties of the
    session buffer, the recognition dispatcher and the transcript
    aggregator.

    Conventions of the embedding:
    - Python values that travel through JSON or come back from the recognizer
      are the inductive [pyval]; a Python [dict] with string keys is an
      association list, looked up from the left.
    - [bytes] are [list byte]; a 16-bit sample is a [Z] with its sign
      wrap-around written out; a float32 is a [spec_float] of precision 24.
    - code that raises is written in a state-and-exception monad [M] over the
      server object; [try]/[except] is [try_except].
    - [json.dumps] is total on [pyval], so a result is traced as the value
      handed to [websocket.send], before encoding.
    - the library calls [json.loads], [self.model.generate] and
      [websocket.send] are the fields of the record [env], which every
      server function takes as its first argument. *)

From Stdlib Require Import ZArith QArith Floats.SpecFloat.
From Stdlib Require Import Strings.Byte.
From stdpp Require Import gmap strings list pretty.

Set Warnings "-register-all".
Local Open Scope string_scope.
Local Open Scope list_scope.
Local Open Scope Z_scope.

(** ** Python values and exceptions *)

Inductive pyval : Type :=
| PNone
| PBool (b : bool)
| PInt (z : Z)
| PFloat (f : spec_float)
| PStr (s : string)
| PList (l : list pyval)
| PDict (d : list (string * pyval)).

Inductive exn_class : Type :=
| ValueError | TypeError | JSONDecodeError | AttributeError
| KeyError | IndexError | ConnectionClosed | RuntimeError | OSError.

Record exn : Type := mkExn { exn_kind : exn_class; exn_str : string }.

Inductive res (A : Type) : Type :=
| Ok (a : A)
| Raise (e : exn).
Arguments Ok {A} a.
Arguments Raise {A} e.

(** [bool(v)]: Python truthiness. *)
Definition truthy (v : pyval) : bool :=
  match v with
  | PNone => false
  | PBool b => b
  | PInt z => negb (z =? 0)
  | PFloat (S754_zero _) => false
  | PFloat _ => true
  | PStr s => negb (String.eqb s "")
  | PList l => match l with [] => false | _ => true end
  | PDict d => match d with [] => false | _ => true end
  end.

Definition type_name (v : pyval) : string :=
  match v with
  | PNone => "NoneType"
  | PBool _ => "bool"
  | PInt _ => "int"
  | PFloat _ => "float"
  | PStr _ => "str"
  | PList _ => "list"
  | PDict _ => "dict"
  end.

(** [isinstance(v, dict)], [isinstance(v, list)], [isinstance(v, str)]. *)
Definition is_dict (v : pyval) : bool := match v with PDict _ => true | _ => false end.
Definition is_list (v : pyval) : bool := match v with PList _ => true | _ => false end.
Definition is_str (v : pyval) : bool := match v with PStr _ => true | _ => false end.

(** [d[k]] as an option, [k in d], [d.get(k, default)] on a dict. *)
Fixpoint dict_lookup (k : string) (d : list (string * pyval)) : option pyval :=
  match d with
  | [] => None
  | (k', v) :: d' => if String.eqb k' k then Some v else dict_lookup k d'
  end.

Definition dict_in (k : string) (d : list (string * pyval)) : bool :=
  match dict_lookup k d with Some _ => true | None => false end.

Definition dict_get (d : list (string * pyval)) (k : string) (default : pyval) : pyval :=
  match dict_lookup k d with Some v => v | None => default end.

(** [v.get(k, default)] on an arbitrary value: only a dict has [get]. *)
Definition py_get (v : pyval) (k : string) (default : pyval) : res pyval :=
  match v with
  | PDict d => Ok (dict_get d k default)
  | _ => Raise (mkExn AttributeError
                  ("'" +:+ type_name v +:+ "' object has no attribute 'get'"))
  end.

(** [v == s] for a string literal [s]. *)
Definition py_eq_str (v : pyval) (s : string) : bool :=
  match v with PStr t => String.eqb t s | _ => false end.

(** A [str] is held as its UTF-8 encoding. A byte of the form 10xxxxxx
    continues the code point begun before it. *)
Definition is_continuation (a : Ascii.ascii) : bool :=
  let n := Ascii.nat_of_ascii a in (128 <=? n)%nat && (n <? 192)%nat.

(** The code points of a [str], in order, each as the string of its
    bytes. *)
Fixpoint utf8_chars (s : string) : list string :=
  match s with
  | EmptyString => []
  | String a s' =>
      let continued :=
        match s' with
        | String b _ => is_continuation b
        | EmptyString => false
        end in
      match utf8_chars s' with
      | ch :: rest =>
          if continued then String a ch :: rest
          else String a EmptyString :: ch :: rest
      | [] => [String a EmptyString]
      end
  end.

(** [len(v)]; the length of a [str] counts code points. *)
Definition py_len (v : pyval) : res Z :=
  match v with
  | PStr s => Ok (Z.of_nat (length (utf8_chars s)))
  | PList l => Ok (Z.of_nat (length l))
  | PDict d => Ok (Z.of_nat (length d))
  | _ => Raise (mkExn TypeError
                  ("object of type '" +:+ type_name v +:+ "' has no len()"))
  end.

(** [v[i]] for a non-negative literal index [i]; a [str] is indexed by
    code point and yields the one-character string. *)
Definition py_index (v : pyval) (i : nat) : res pyval :=
  match v with
  | PList l =>
      match l !! i with
      | Some x => Ok x
      | None => Raise (mkExn IndexError "list index out of range")
      end
  | PStr s =>
      match utf8_chars s !! i with
      | Some ch => Ok (PStr ch)
      | None => Raise (mkExn IndexError "string index out of range")
      end
  | PDict _ => Raise (mkExn KeyError (pretty i))
  | _ => Raise (mkExn TypeError
                  ("'" +:+ type_name v +:+ "' object is not subscriptable"))
  end.

(** ** PCM16 samples and float32 conversion

    [np.frombuffer(audio_data, dtype=np.int16).astype(np.float32) / 32768.0] *)

Definition byte_val (b : byte) : Z := Z.of_N (Byte.to_N b).

(** One little-endian signed 16-bit sample. *)
Definition int16_le (lo hi : byte) : Z :=
  let u := byte_val lo + 256 * byte_val hi in
  if u <? 32768 then u else u - 65536.

(** [np.frombuffer(buf, dtype=np.int16)]: [None] stands for the
    [ValueError] numpy raises when the size is not a multiple of 2. *)
Fixpoint frombuffer_int16 (buf : list byte) : option (list Z) :=
  match buf with
  | [] => Some []
  | [_] => None
  | lo :: hi :: rest =>
      match frombuffer_int16 rest with
      | Some samples => Some (int16_le lo hi :: samples)
      | None => None
      end
  end.

Definition prec32 : Z := 24.
Definition emax32 : Z := 128.

(** [.astype(np.float32)] on an integer. *)
Definition float32_of_Z (z : Z) : spec_float :=
  binary_normalize prec32 emax32 z 0 false.

Definition f32768 : spec_float := float32_of_Z 32768.

(** One element of [... .astype(np.float32) / 32768.0]. *)
Definition sample_to_float (s : Z) : spec_float :=
  SFdiv prec32 emax32 (float32_of_Z s) f32768.

Definition audio_to_float32 (buf : list byte) : option (list spec_float) :=
  match frombuffer_int16 buf with
  | Some samples => Some (map sample_to_float samples)
  | None => None
  end.

(** The rational a finite float denotes ([None] for infinities and NaN). *)
Definition SF2Q (f : spec_float) : option Q :=
  match f with
  | S754_zero _ => Some 0%Q
  | S754_finite s m e =>
      let mag := if 0 <=? e
                 then inject_Z (Z.pos m * 2 ^ e)
                 else Qmake (Z.pos m) (Z.to_pos (2 ^ (- e))) in
      Some (if s then Qopp mag else mag)
  | _ => None
  end.

(** ** The server object and its monad *)

(** One entry of [self.clients]:
    [{"audio_buffer": b"", "sample_rate": 16000}]. *)
Record client_data : Type := mkClient {
  audio_buffer : list byte;
  sample_rate : pyval
}.

(** Call sites of [logger.error] in [src/server.py]. *)
Inductive log_site : Type :=
| LogSessionError (e : exn)        (* process_audio, [except Exception] *)
| LogBadShape (result : pyval)     (* recognize_audio, result is not a dict *)
| LogSegmentError (e : exn)        (* recognize_audio, timestamp segment *)
| LogRecognizeError (e : exn).     (* recognize_audio, [except Exception] *)

(** What a run leaves behind: every call of [recognize_audio] with the
    buffer and sample rate it read (a dispatch), every result handed to
    [websocket.send], and every [logger.error] record. Records below
    error level are not traced. *)
Inductive event : Type :=
| EvDispatch (client_id : Z) (audio : list byte) (rate : pyval)
| EvSend (client_id : Z) (result : pyval)
| EvError (client_id : Z) (site : log_site).

Record server : Type := mkServer {
  clients : gmap Z client_data;
  events : list event
}.

Definition M (A : Type) : Type := server -> res A * server.

#[global] Instance M_ret : MRet M := fun A a s => (Ok a, s).
#[global] Instance M_bind : MBind M := fun A B k m s =>
  match m s with
  | (Ok a, s') => k a s'
  | (Raise e, s') => (Raise e, s')
  end.

Definition raise {A : Type} (e : exn) : M A := fun s => (Raise e, s).

Definition lift_res {A : Type} (r : res A) : M A := fun s => (r, s).

(** [try: body except Exception as e: handler(e)]. *)
Definition try_except {A : Type} (body : M A) (handler : exn -> M A) : M A :=
  fun s =>
    match body s with
    | (Ok a, s') => (Ok a, s')
    | (Raise e, s') => handler e s'
    end.

Definition emit (ev : event) : M unit :=
  fun s => (Ok tt, mkServer (clients s) (events s ++ [ev])).

(** [self.clients[client_id]] *)
Definition get_client (client_id : Z) : M client_data :=
  fun s =>
    match clients s !! client_id with
    | Some c => (Ok c, s)
    | None => (Raise (mkExn KeyError (pretty client_id)), s)
    end.

(** [self.clients[client_id] = c] *)
Definition put_client (client_id : Z) (c : client_data) : M unit :=
  fun s => (Ok tt, mkServer (<[client_id := c]> (clients s)) (events s)).

(** [self.clients[client_id]["audio_buffer"] = buf] *)
Definition set_audio_buffer (client_id : Z) (buf : list byte) : M unit :=
  c ← get_client client_id;
  put_client client_id (mkClient buf (sample_rate c)).

(** [self.clients[client_id]["sample_rate"] = rate] *)
Definition set_sample_rate (client_id : Z) (rate : pyval) : M unit :=
  c ← get_client client_id;
  put_client client_id (mkClient (audio_buffer c) rate).

(** Messages yielded by [async for message in websocket]. *)
Inductive ws_message : Type :=
| WsText (s : string)
| WsBinary (b : list byte).

(** The collaborators of the server: [json.loads], [self.model.generate]
    (as a function of the samples and of [audio_sample_rate]) and whether
    [websocket.send] delivers a result or raises [ConnectionClosed]. *)
Record env : Type := mkEnv {
  json_loads : string -> res pyval;
  generate : list spec_float -> pyval -> res pyval;
  send_ok : pyval -> bool
}.

Definition result_empty : pyval :=
  PDict [("text", PStr ""); ("timestamps", PList [])].

Definition result_error (msg : string) : pyval :=
  PDict [("text", PStr ""); ("error", PStr msg); ("timestamps", PList [])].

Definition bad_shape_message : string := "模型返回格式错误".

Section Server.
Variable E : env.

(** The body of [for segment in timestamp_data], with its own
    [try]/[except]; returns the list [timestamps] after the segment. *)
Definition add_segment (client_id : Z) (segment : pyval)
    (timestamps : list pyval) : M (list pyval) :=
  try_except
    (match segment with
     | PDict d =>
         if dict_in "text" d && dict_in "timestamp" d then
           let text := dict_get d "text" PNone in
           let stamp := dict_get d "timestamp" PNone in
           start ← lift_res (py_index stamp 0);
           stop ← lift_res (py_index stamp 1);
           mret (timestamps ++
                   [PDict [("text", text); ("start", start); ("end", stop)]])
         else mret timestamps
     | _ => mret timestamps
     end)
    (fun ts_error =>
       emit (EvError client_id (LogSegmentError ts_error));;
       mret timestamps).

Fixpoint add_segments (client_id : Z) (segments : list pyval)
    (timestamps : list pyval) : M (list pyval) :=
  match segments with
  | [] => mret timestamps
  | segment :: rest =>
      timestamps' ← add_segment client_id segment timestamps;
      add_segments client_id rest timestamps'
  end.

(** The [try]/[except] statement of [recognize_audio]: call the
    recognizer and shape its answer. *)
Definition run_model (client_id : Z) (audio_np : list spec_float)
    (rate : pyval) : M pyval :=
  try_except
    (result ← lift_res (generate E audio_np rate);
     match result with
     | PDict d =>
         let text := dict_get d "text" (PStr "") in
         timestamps ←
           (if dict_in "timestamp" d then
              match dict_get d "timestamp" PNone with
              | PList timestamp_data =>
                  add_segments client_id timestamp_data []
              | _ => mret []
              end
            else mret []);
         _ ← lift_res (py_len text);
         mret (PDict [("text", text); ("timestamps", PList timestamps)])
     | _ =>
         emit (EvError client_id (LogBadShape result));;
         mret (result_error bad_shape_message)
     end)
    (fun e =>
       emit (EvError client_id (LogRecognizeError e));;
       mret (result_error (exn_str e))).

(** [ASRServer.recognize_audio] *)
Definition recognize_audio (client_id : Z) : M pyval :=
  client ← get_client client_id;
  let audio_data := audio_buffer client in
  let rate := sample_rate client in
  emit (EvDispatch client_id audio_data rate);;
  match audio_data with
  | [] => mret result_empty
  | _ =>
      audio_np ←
        match audio_to_float32 audio_data with
        | Some a => mret a
        | None => raise (mkExn ValueError
                           "buffer size must be a multiple of element size")
        end;
      run_model client_id audio_np rate
  end.

(** [await websocket.send(json.dumps(result))] *)
Definition ws_send (client_id : Z) (result : pyval) : M unit :=
  if send_ok E result then emit (EvSend client_id result)
  else raise (mkExn ConnectionClosed "connection closed").

(** The three statements shared by the [eof] branch and the threshold
    branch of [process_audio]: recognise, send the result, clear the
    buffer. *)
Definition recognize_and_reply (client_id : Z) : M unit :=
  result ← recognize_audio client_id;
  ws_send client_id result;;
  set_audio_buffer client_id [].

(** The body of [async for message in websocket]. *)
Definition handle_message (client_id : Z) (message : ws_message) : M unit :=
  match message with
  | WsText s =>
      data ← lift_res (json_loads E s);
      ty ← lift_res (py_get data "type" PNone);
      if py_eq_str ty "config" then
        rate ← lift_res (py_get data "sample_rate" (PInt 16000));
        set_sample_rate client_id rate
      else if py_eq_str ty "eof" then
        recognize_and_reply client_id
      else mret tt
  | WsBinary b =>
      client ← get_client client_id;
      set_audio_buffer client_id (audio_buffer client ++ b);;
      client' ← get_client client_id;
      if 32000 <? Z.of_nat (length (audio_buffer client')) then
        recognize_and_reply client_id
      else mret tt
  end.

(** The loop itself: it stops at the first exception. *)
Fixpoint message_loop (client_id : Z) (messages : list ws_message) : M unit :=
  match messages with
  | [] => mret tt
  | message :: rest =>
      handle_message client_id message;;
      message_loop client_id rest
  end.

(** [ASRServer.process_audio] on a connection that delivers [messages]
    and then closes: register the session, run the loop, log what
    ended it, and delete the entry in [finally]. *)
Definition process_audio (client_id : Z) (messages : list ws_message)
    (s : server) : server :=
  let s1 := mkServer (<[client_id := mkClient [] (PInt 16000)]> (clients s))
                     (events s) in
  let '(r, s2) := message_loop client_id messages s1 in
  let s3 :=
    match r with
    | Ok _ => s2
    | Raise e =>
        match exn_kind e with
        | ConnectionClosed => s2
        | _ => mkServer (clients s2)
                        (events s2 ++ [EvError client_id (LogSessionError e)])
        end
    end in
  mkServer (delete client_id (clients s3)) (events s3).
End Server.

(** ** The client: recording state and transcript aggregation *)

(** One screen printed by [_display_results]: the current text, the
    accumulated text when it is not empty, and the session duration when
    a session start time is set. *)
Record screen : Type := mkScreen {
  shown_text : pyval;
  shown_accumulated : option string;
  shown_duration : option Q
}.

(** Call sites of [logger.error] in [receive_results]. *)
Inductive client_error : Type :=
| ServerError (err : pyval)      (* the result carries an "error" key *)
| JSONError (e : exn)            (* [except json.JSONDecodeError] *)
| HandlingError (e : exn).       (* [except Exception] *)

(** The fields of [ASRClient] that recording and result handling touch.
    [has_stream] is [self.stream is not None]. *)
Record ASRClient : Type := mkASRClient {
  is_recording : bool;
  has_stream : bool;
  current_text : pyval;
  accumulated_text : string;
  session_start_time : Q;
  screens : list screen;
  client_log : list client_error
}.

(** The state [__init__] builds. *)
Definition new_client : ASRClient :=
  mkASRClient false false (PStr "") "" 0%Q [] [].

(** [ASRClient.start_recording] at clock reading [now]; [open_ok] tells
    whether [self.audio.open] returns a stream or raises. *)
Definition start_recording (now : Q) (open_ok : bool) (c : ASRClient)
    : res unit * ASRClient :=
  if is_recording c then (Ok tt, c)
  else
    let c1 := mkASRClient (is_recording c) (has_stream c) (current_text c)
                          "" now (screens c) (client_log c) in
    if open_ok then
      (Ok tt, mkASRClient true true (current_text c1) (accumulated_text c1)
                          (session_start_time c1) (screens c1) (client_log c1))
    else (Raise (mkExn OSError "cannot open input stream"), c1).

(** [s.endswith(t)] *)
Fixpoint endswith (s t : string) : bool :=
  if String.eqb s t then true
  else match s with
       | EmptyString => false
       | String _ s' => endswith s' t
       end.

(** [t in s] for strings *)
Fixpoint contains (t s : string) : bool :=
  if String.prefix t s then true
  else match s with
       | EmptyString => false
       | String _ s' => contains t s'
       end.

(** [ASRClient._display_results] at clock reading [now]. *)
Definition display_results (now : Q) (text : pyval) (c : ASRClient) : ASRClient :=
  if negb (truthy text) then c
  else
    let frame :=
      mkScreen text
               (if String.eqb (accumulated_text c) "" then None
                else Some (accumulated_text c))
               (if Qle_bool (session_start_time c) 0 then None
                else Some (now - session_start_time c)%Q) in
    mkASRClient (is_recording c) (has_stream c) (current_text c)
                (accumulated_text c) (session_start_time c)
                (screens c ++ [frame]) (client_log c).

Definition log_client (err : client_error) (c : ASRClient) : ASRClient :=
  mkASRClient (is_recording c) (has_stream c) (current_text c)
              (accumulated_text c) (session_start_time c)
              (screens c) (client_log c ++ [err]).

Definition set_current_text (text : pyval) (c : ASRClient) : ASRClient :=
  mkASRClient (is_recording c) (has_stream c) text
              (accumulated_text c) (session_start_time c)
              (screens c) (client_log c).

Definition set_accumulated_text (acc : string) (c : ASRClient) : ASRClient :=
  mkASRClient (is_recording c) (has_stream c) (current_text c)
              acc (session_start_time c)
              (screens c) (client_log c).

(** The statements under [if text:] in [receive_results]: record the
    current text and merge it into the accumulated text. A text that is
    not a string makes [endswith] raise [TypeError] after [current_text]
    has been assigned. *)
Definition merge_text (text : pyval) (c : ASRClient) : res unit * ASRClient :=
  let c1 := set_current_text text c in
  match text with
  | PStr t =>
      if negb (endswith (accumulated_text c1) t)
         && negb (contains t (accumulated_text c1)) then
        if negb (String.eqb (accumulated_text c1) "") then
          (Ok tt, set_accumulated_text (accumulated_text c1 +:+ " " +:+ t) c1)
        else (Ok tt, set_accumulated_text t c1)
      else (Ok tt, c1)
  | _ =>
      (Raise (mkExn TypeError
                ("endswith first arg must be str or a tuple of str, not "
                 +:+ type_name text)), c1)
  end.

Section Client.
(** [json.loads] as the client sees it. *)
Variable loads : string -> res pyval.

(** One turn of [while True] in [receive_results]: a message received
    at clock reading [now]. *)
Definition handle_result (now : Q) (message : string) (c : ASRClient)
    : ASRClient :=
  match loads message with
  | Raise e =>
      match exn_kind e with
      | JSONDecodeError => log_client (JSONError e) c
      | _ => log_client (HandlingError e) c
      end
  | Ok result =>
      match result with
      | PDict d =>
          if dict_in "error" d then
            log_client (ServerError (dict_get d "error" PNone)) c
          else if dict_in "text" d then
            let text := dict_get d "text" PNone in
            if truthy text then
              match merge_text text c with
              | (Ok _, c') => display_results now text c'
              | (Raise e, c') => log_client (HandlingError e) c'
              end
            else display_results now text c
          else display_results now (PStr "") c
      | _ => display_results now (PStr "") c
      end
  end.

(** [receive_results] over the messages the connection delivers, each
    with its arrival time, until the connection closes. *)
Fixpoint receive_results (received : list (Q * string)) (c : ASRClient)
    : ASRClient :=
  match received with
  | [] => c
  | (now, message) :: rest => receive_results rest (handle_result now message c)
  end.
End Client.

(** ** Concrete collaborators for running the model *)

(** The double-quote character and a JSON string literal. *)
Definition dquote : string :=
  String (Ascii.Ascii false true false false false true false false) EmptyString.

Definition json_str (s : string) : string := dquote +:+ s +:+ dquote.

(** [json.dumps({"type": "config", "sample_rate": 16000})] and
    [json.dumps({"type": "eof"})], the two control messages the client
    sends. *)
Definition config_message : string :=
  "{" +:+ json_str "type" +:+ ": " +:+ json_str "config" +:+ ", "
      +:+ json_str "sample_rate" +:+ ": 16000}".

Definition eof_message : string :=
  "{" +:+ json_str "type" +:+ ": " +:+ json_str "eof" +:+ "}".

(** [json.dumps({"text": t, "timestamps": []})] for a text without
    characters that need escaping. *)
Definition text_message (t : string) : string :=
  "{" +:+ json_str "text" +:+ ": " +:+ json_str t +:+ ", "
      +:+ json_str "timestamps" +:+ ": []}".

(** [json.dumps({"text": t, "error": msg, "timestamps": []})] *)
Definition error_message (t msg : string) : string :=
  "{" +:+ json_str "text" +:+ ": " +:+ json_str t +:+ ", "
      +:+ json_str "error" +:+ ": " +:+ json_str msg +:+ ", "
      +:+ json_str "timestamps" +:+ ": []}".

(** A decoder given by a finite table of documents; every other text is
    rejected the way [json.loads] rejects a malformed document. *)
Fixpoint table_loads (table : list (string * pyval)) (s : string) : res pyval :=
  match table with
  | [] => Raise (mkExn JSONDecodeError "Expecting value: line 1 column 1 (char 0)")
  | (doc, v) :: table' =>
      if String.eqb doc s then Ok v else table_loads table' s
  end.

Definition control_table : list (string * pyval) :=
  [ (config_message, PDict [("type", PStr "config"); ("sample_rate", PInt 16000)]);
    (eof_message, PDict [("type", PStr "eof")]) ].

Definition transcript_table : list (string * pyval) :=
  [ (text_message "hello", PDict [("text", PStr "hello"); ("timestamps", PList [])]);
    (text_message "hello world",
       PDict [("text", PStr "hello world"); ("timestamps", PList [])]);
    (text_message "world", PDict [("text", PStr "world"); ("timestamps", PList [])]);
    (error_message "hello" "boom",
       PDict [("text", PStr "hello"); ("error", PStr "boom"); ("timestamps", PList [])]) ].

(** A recognizer that answers every request with the same value, and one
    that always fails. *)
Definition constant_model (answer : pyval) : list spec_float -> pyval -> res pyval :=
  fun _ _ => Ok answer.

Definition failing_model (msg : string) : list spec_float -> pyval -> res pyval :=
  fun _ _ => Raise (mkExn RuntimeError msg).

Definition reliable_send : pyval -> bool := fun _ => true.

Definition sample_env (model : list spec_float -> pyval -> res pyval) : env :=
  mkEnv (table_loads control_table) model reliable_send.

Definition empty_server : server := mkServer ∅ [].

(** A frame of [n] zero bytes (silence). *)
Definition silence (n : nat) : list byte := replicate n x00.

(** A server with the single session 7, holding [buf] at the default
    sample rate. *)
Definition session_with (buf : list byte) : server :=
  mkServer {[ 7 := mkClient buf (PInt 16000) ]} [].

(** The recognizer answers [{"text": "ok"}]; the recognizer fails. *)
Definition ok_env : env := sample_env (constant_model (PDict [("text", PStr "ok")])).

Definition failing_env : env := sample_env (failing_model "model failure").

(** A client in the middle of a transcript, not recording. *)
Definition paused_client : ASRClient :=
  mkASRClient false false (PStr "hello") "hello" 1%Q [] [].

(** ** Predicates used in the statements *)

Definition is_error_event (ev : event) : bool :=
  match ev with EvError _ _ => true | _ => false end.

(** A computation that leaves [self.clients] alone and only writes error
    records to the trace. *)
Definition quiet {A : Type} (m : M A) : Prop :=
  forall s r s', m s = (r, s') ->
    clients s' = clients s /\
    exists log, events s' = events s ++ log /\ forallb is_error_event log = true.

(** A computation that maintains the property [P] of the server, whether
    it returns or raises. *)
Definition preserves {A : Type} (P : server -> Prop) (m : M A) : Prop :=
  forall s r s', P s -> m s = (r, s') -> P s'.

(** Every buffered byte string holds whole 16-bit samples. *)
Definition buffers_aligned (s : server) : Prop :=
  forall client_id c, clients s !! client_id = Some c ->
    Nat.Even (length (audio_buffer c)).

(** Every binary frame of a message list holds whole 16-bit samples. *)
Definition frames_aligned (messages : list ws_message) : Prop :=
  forall b, In (WsBinary b) messages -> Nat.Even (length b).

(** The state right after [process_audio] has registered the session. *)
Definition register (client_id : Z) (s : server) : server :=
  mkServer (<[client_id := mkClient [] (PInt 16000)]> (clients s)) (events s).

(** What [recognize_audio] answers on a non-empty buffer, by what the
    recognizer did: raised, returned a dict (whose text has a length or
    not), or returned something else. *)
Definition answer_for (g : res pyval) (r : pyval) : Prop :=
  match g with
  | Raise e => r = result_error (exn_str e)
  | Ok (PDict d) =>
      match py_len (dict_get d "text" (PStr "")) with
      | Ok _ => exists ts,
          r = PDict [("text", dict_get d "text" (PStr "")); ("timestamps", PList ts)]
      | Raise e => r = result_error (exn_str e)
      end
  | Ok _ => r = result_error bad_shape_message
  end.

(** [json.dumps({"type": "ping"})], a control message of a type the
    server does not know, and the decoder table extended with it and
    with the document [5]. *)
Definition ping_message : string :=
  "{" +:+ json_str "type" +:+ ": " +:+ json_str "ping" +:+ "}".

Definition wide_table : list (string * pyval) :=
  control_table ++ [ (ping_message, PDict [("type", PStr "ping")]); ("5", PInt 5) ].

Definition wide_env : env :=
  mkEnv (table_loads wide_table) (constant_model (PDict [("text", PStr "ok")]))
        reliable_send.

(** The connection refuses every reply. *)
Definition refusing_env : env :=
  mkEnv (table_loads control_table) (constant_model (PDict [("text", PStr "ok")]))
        (fun _ => false).

(** The recognizer returns a text with two segments, the second of which
    has a timestamp that cannot be indexed. *)
Definition segmented_answer : list (string * pyval) :=
  [ ("text", PStr "ok");
    ("timestamp",
     PList [ PDict [("text", PStr "o"); ("timestamp", PList [PInt 0; PInt 120])];
             PDict [("text", PStr "k"); ("timestamp", PInt 7)] ]) ].

Definition segmented_env : env := sample_env (constant_model (PDict segmented_answer)).

(** A client in the middle of a recording. *)
Definition recording_client : ASRClient :=
  mkASRClient true true (PStr "hello") "hello" 1%Q [] [].

(** Results as the client may receive them: a number as text, and the
    server's empty result. *)
Definition odd_results_table : list (string * pyval) :=
  [ ("{number}", PDict [("text", PInt 5)]);
    ("{empty}", result_empty) ].

(** ** The rest of the client: connecting, stopping, and [main] *)

(** How [ASRClient.connect] ends: [websockets.connect] raises, or the
    connection is made but sending the config message raises, or both
    succeed. *)
Inductive connect_outcome : Type :=
| ConnectFailed
| ConfigFailed
| Connected.

(** [ASRClient.connect]: its return value and the control messages it
    has sent, the text of
    [json.dumps({"type": "config", "sample_rate": self.sample_rate})]
    with the sample rate 16000 of [__init__]. Both exceptions are caught
    and make it return [False]. *)
Definition connect (outcome : connect_outcome) : bool * list string :=
  match outcome with
  | Connected => (true, [config_message])
  | ConnectFailed | ConfigFailed => (false, [])
  end.

(** [ASRClient.stop_recording]. [connected] is
    [self.websocket is not None and self.loop is not None]; [closes]
    tells whether [self.stream.stop_stream()] and [self.stream.close()]
    return or raise; [scheduled] tells whether
    [asyncio.run_coroutine_threadsafe] accepts the send or raises (an
    exception that is caught and logged; that record is not traced).
    The last component lists the control messages handed to the event
    loop for sending: the text of [json.dumps({"type": "eof"})]. When
    the stream cannot be stopped the exception leaves the method with
    the stream still set and [is_recording] still true. *)
Definition stop_recording (connected closes scheduled : bool) (c : ASRClient)
    : res unit * ASRClient * list string :=
  if negb (is_recording c) then (Ok tt, c, [])
  else if has_stream c && negb closes then
    (Raise (mkExn OSError "stream cannot be stopped"), c, [])
  else
    (Ok tt,
     mkASRClient false false (current_text c) (accumulated_text c)
                 (session_start_time c) (screens c) (client_log c),
     if connected && scheduled then [eof_message] else []).

(** [str.lower] on the ASCII letters, which is all that matters for a
    comparison with ['q'] or ['s']. *)
Definition lower_ascii (a : Ascii.ascii) : Ascii.ascii :=
  let n := Ascii.nat_of_ascii a in
  if (65 <=? n)%nat && (n <=? 90)%nat then Ascii.ascii_of_nat (n + 32) else a.

Fixpoint lower (s : string) : string :=
  match s with
  | EmptyString => EmptyString
  | String a s' => String (lower_ascii a) (lower s')
  end.

(** One line typed at the prompt of [main], with what the environment
    does should the line start or stop a recording: the clock reading,
    whether the audio device opens, whether the stream can be stopped,
    and whether the event loop accepts the [eof]. *)
Record command : Type := mkCommand {
  cmd_text : string;
  cmd_time : Q;
  cmd_open : bool;
  cmd_closes : bool;
  cmd_scheduled : bool
}.

(** The [while True] loop of [main] over the lines typed, on a connected
    client; the list ends where the user interrupts the prompt (the
    [KeyboardInterrupt] that [main] passes over). An exception of
    [start_recording] or of [stop_recording] leaves the loop. *)
Fixpoint command_loop (cmds : list command) (c : ASRClient)
    : res unit * ASRClient * list string :=
  match cmds with
  | [] => (Ok tt, c, [])
  | cmd :: rest =>
      if String.eqb (lower (cmd_text cmd)) "q" then (Ok tt, c, [])
      else if String.eqb (lower (cmd_text cmd)) "s" then
        if is_recording c then
          match stop_recording true (cmd_closes cmd) (cmd_scheduled cmd) c with
          | (Ok _, c1, out) =>
              let '(r, c2, out') := command_loop rest c1 in
              (r, c2, out ++ out')
          | (Raise e, c1, out) => (Raise e, c1, out)
          end
        else
          match start_recording (cmd_time cmd) (cmd_open cmd) c with
          | (Ok _, c1) => command_loop rest c1
          | (Raise e, c1) => (Raise e, c1, [])
          end
      else command_loop rest c
  end.

(** [main] of the client, after argument parsing: [connect] and, when it
    succeeds, the [try] block (start recording, then the command loop)
    and the [stop_recording] of [finally], whose exception, if any,
    replaces the one of the [try] block. The result lists every control
    message sent, in order. Left out: the receive task that runs beside
    the loop (it touches the texts and screens only), the audio frames
    the stream callback sends (binary messages), and [disconnect], which
    follows [stop_recording] and touches the connection and the PyAudio
    handle only. *)
Definition main (outcome : connect_outcome) (now : Q) (open_ok : bool)
    (cmds : list command) (closes scheduled : bool) (c : ASRClient)
    : res unit * ASRClient * list string :=
  match connect outcome with
  | (false, sent) => (Ok tt, c, sent)
  | (true, sent) =>
      let '(r, c1, out) :=
        match start_recording now open_ok c with
        | (Ok _, c0) => command_loop cmds c0
        | (Raise e, c0) => (Raise e, c0, [])
        end in
      match stop_recording true closes scheduled c1 with
      | (Ok _, c2, out') => (r, c2, sent ++ out ++ out')
      | (Raise e, c2, out') => (Raise e, c2, sent ++ out ++ out')
      end
  end.

(** The accumulated text after a non-empty text [t] has been merged into
    [acc]. *)
Definition merged (acc t : string) : string :=
  if contains t acc then acc
  else if String.eqb acc "" then t else acc +:+ " " +:+ t.

(** The text a decoded message brings to the aggregator, if any: the
    truthy "text" of a dict without an "error" key. *)
Definition carried_text (r : res pyval) : option pyval :=
  match r with
  | Ok (PDict d) =>
      if dict_in "error" d then None
      else if dict_in "text" d then
        if truthy (dict_get d "text" PNone) then Some (dict_get d "text" PNone)
        else None
      else None
  | _ => None
  end.

(** ** Further predicates *)

Definition is_send (ev : event) : bool :=
  match ev with EvSend _ _ => true | _ => false end.

Definition is_dispatch (ev : event) : bool :=
  match ev with EvDispatch _ _ _ => true | _ => false end.

(** How many events of a trace satisfy [p]. *)
Definition count_events (p : event -> bool) (l : list event) : nat :=
  length (filter (fun ev => p ev = true) l).

(** A computation that writes nothing to the trace. *)
Definition silent {A : Type} (m : M A) : Prop :=
  forall s r s', m s = (r, s') -> events s' = events s.

(** Sends against dispatches in the events of one step: a step that
    returns has sent one result per dispatch, at most one; a step that
    raises has sent nothing, after at most one dispatch. *)
Definition step_balance {A : Type} (r : res A) (l : list event) : Prop :=
  match r with
  | Ok _ => count_events is_send l = count_events is_dispatch l /\
            (count_events is_dispatch l <= 1)%nat
  | Raise _ => count_events is_send l = 0%nat /\
               (count_events is_dispatch l <= 1)%nat
  end.

Definition traced {A : Type} (m : M A) : Prop :=
  forall s r s', m s = (r, s') ->
    exists l, events s' = events s ++ l /\ step_balance r l.

(** A property of the server that only looks at [self.clients]. *)
Definition clients_only (P : server -> Prop) : Prop :=
  forall s s', clients s' = clients s -> P s -> P s'.

(** The buffer of session [client_id], if there is one, is within the
    dispatch threshold. *)
Definition session_bounded (client_id : Z) (s : server) : Prop :=
  forall c, clients s !! client_id = Some c ->
    Z.of_nat (length (audio_buffer c)) <= 32000.

(** The timestamp entry a segment contributes, if any: the segment must
    be a dict with "text" and "timestamp" keys whose timestamp can be
    indexed at 0 and 1. *)
Definition entry_of_segment (segment : pyval) : option pyval :=
  match segment with
  | PDict d =>
      if dict_in "text" d && dict_in "timestamp" d then
        match py_index (dict_get d "timestamp" PNone) 0,
              py_index (dict_get d "timestamp" PNone) 1 with
        | Ok start, Ok stop =>
            Some (PDict [("text", dict_get d "text" PNone);
                         ("start", start); ("end", stop)])
        | _, _ => None
        end
      else None
  | _ => None
  end.

(** The timestamps of a dict the recognizer returned. *)
Definition timestamps_of (d : list (string * pyval)) : list pyval :=
  if dict_in "timestamp" d then
    match dict_get d "timestamp" PNone with
    | PList timestamp_data => omap entry_of_segment timestamp_data
    | _ => []
    end
  else [].

(** * Properties *)

(** ** Sample conversion *)

Lemma byte_val_range (b : byte) : 0 <= byte_val b < 256.
Proof.
  unfold byte_val. pose proof (Byte.to_N_bounded b) as Hb. lia.
Qed.

Lemma int16_le_range (lo hi : byte) : -32768 <= int16_le lo hi <= 32767.
Proof.
  unfold int16_le.
  pose proof (byte_val_range lo). pose proof (byte_val_range hi).
  cbv zeta. destruct (Z.ltb_spec (byte_val lo + 256 * byte_val hi) 32768); lia.
Qed.

Lemma digits2_pos_lower (p : positive) :
  2 ^ (Z.pos (digits2_pos p) - 1) <= Z.pos p.
Proof.
  induction p as [p IH|p IH|]; simpl digits2_pos.
  - rewrite Pos2Z.inj_succ.
    replace (Z.succ (Z.pos (digits2_pos p)) - 1) with (Z.succ (Z.pos (digits2_pos p) - 1)) by lia.
    rewrite Z.pow_succ_r by lia. lia.
  - rewrite Pos2Z.inj_succ.
    replace (Z.succ (Z.pos (digits2_pos p)) - 1) with (Z.succ (Z.pos (digits2_pos p) - 1)) by lia.
    rewrite Z.pow_succ_r by lia. lia.
  - simpl. lia.
Qed.

Lemma digits2_pos_small (p : positive) :
  Z.pos p <= 32768 -> Z.pos (digits2_pos p) <= 16.
Proof.
  intros Hp. destruct (Z.le_gt_cases (Z.pos (digits2_pos p)) 16) as [H|H]; [exact H|].
  pose proof (digits2_pos_lower p) as Hl.
  assert (2 ^ 16 <= 2 ^ (Z.pos (digits2_pos p) - 1)) by (apply Z.pow_le_mono_r; lia).
  change (2 ^ 16) with 65536 in *. lia.
Qed.

Lemma digits2_pos_iter_xO (p : positive) (k : positive) :
  Z.pos (digits2_pos (Pos.iter xO p k)) = Z.pos (digits2_pos p) + Z.pos k.
Proof.
  induction k as [|k IH] using Pos.peano_ind.
  - simpl. lia.
  - rewrite Pos.iter_succ. simpl digits2_pos. lia.
Qed.

Lemma Zpos_iter_xO (p : positive) (k : positive) :
  Z.pos (Pos.iter xO p k) = Z.pos p * 2 ^ Z.pos k.
Proof.
  induction k as [|k IH] using Pos.peano_ind.
  - simpl. lia.
  - rewrite Pos.iter_succ, Pos2Z.inj_xO, IH, Pos2Z.inj_succ, Z.pow_succ_r by lia. lia.
Qed.

(** Rounding an exact value whose mantissa already has 24 digits
    returns it unchanged. *)
Lemma binary_round_aux_canonical (sx : bool) (m : positive) (e : Z) :
  Z.pos (digits2_pos m) = 24 -> -149 <= e <= 104 ->
  binary_round_aux prec32 emax32 sx (Z.pos m) e loc_Exact = S754_finite sx m e.
Proof.
  intros Hm He. unfold binary_round_aux, shr_fexp, Zdigits2. rewrite Hm.
  assert (Hf : fexp prec32 emax32 (24 + e) - e = 0).
  { unfold fexp, emin, prec32, emax32. lia. }
  rewrite Hf. simpl shr.
  cbv beta iota zeta delta [shr_m loc_of_shr_record round_nearest_even].
  rewrite Hm, Hf. simpl shr.
  cbv beta iota zeta delta [shr_m].
  destruct (Z.leb_spec e (emax32 - prec32)) as [_|Hgt]; [reflexivity|].
  unfold emax32, prec32 in Hgt. lia.
Qed.

Lemma binary_round_aux_double (sx : bool) (m : positive) (e : Z) :
  Z.pos (digits2_pos m) = 24 -> -149 <= e + 1 <= 104 ->
  binary_round_aux prec32 emax32 sx (Z.pos m~0) e loc_Exact = S754_finite sx m (e + 1).
Proof.
  intros Hm He. unfold binary_round_aux, shr_fexp.
  unfold Zdigits2 at 1. simpl digits2_pos. rewrite Pos2Z.inj_succ, Hm.
  assert (Hf : fexp prec32 emax32 (Z.succ 24 + e) - e = 1).
  { unfold fexp, emin, prec32, emax32. lia. }
  rewrite Hf. simpl shr.
  cbv beta iota zeta delta [shr_m loc_of_shr_record round_nearest_even].
  unfold Zdigits2. rewrite Hm.
  assert (Hf' : fexp prec32 emax32 (24 + (e + 1)) - (e + 1) = 0).
  { unfold fexp, emin, prec32, emax32. lia. }
  rewrite Hf'. simpl shr.
  cbv beta iota zeta delta [shr_m].
  destruct (Z.leb_spec (e + 1) (emax32 - prec32)) as [_|Hgt]; [reflexivity|].
  unfold emax32, prec32 in Hgt. lia.
Qed.

Lemma binary_round_small (sx : bool) (p : positive) :
  Z.pos (digits2_pos p) < 24 ->
  exists k, Z.pos k = 24 - Z.pos (digits2_pos p) /\
    binary_round prec32 emax32 sx p 0 = S754_finite sx (Pos.iter xO p k) (Z.neg k).
Proof.
  intros Hd. unfold binary_round, shl_align.
  assert (Hf : fexp prec32 emax32 (Z.pos (digits2_pos p) + 0) = Z.pos (digits2_pos p) - 24).
  { unfold fexp, emin, prec32, emax32. lia. }
  rewrite Hf.
  destruct (Z.pos (digits2_pos p) - 24 - 0) as [|k|k] eqn:Hk; try lia.
  exists k. split; [lia|].
  replace (Z.pos (digits2_pos p) - 24) with (Z.neg k) by lia.
  apply binary_round_aux_canonical.
  - rewrite digits2_pos_iter_xO. lia.
  - lia.
Qed.

Lemma f32768_eq : f32768 = S754_finite false 8388608 (-8).
Proof. reflexivity. Qed.

Lemma SFdiv_32768 (sx : bool) (m : positive) (e : Z) :
  Z.pos (digits2_pos m) = 24 -> -100 <= e <= 100 ->
  SFdiv prec32 emax32 (S754_finite sx m e) f32768 = S754_finite sx m (e - 15).
Proof.
  intros Hm He. rewrite f32768_eq. unfold SFdiv.
  assert (Hcore : SFdiv_core_binary prec32 emax32 (Z.pos m) e 8388608 (-8)
                  = (Z.pos m~0, e - 16, loc_Exact)).
  { unfold SFdiv_core_binary, Zdigits2. rewrite Hm.
    change (Z.pos (digits2_pos 8388608)) with 24.
    cbv zeta.
    assert (He' : Z.min (fexp prec32 emax32 (24 + e - (24 + -8))) (e - -8) = e - 16).
    { unfold fexp, emin, prec32, emax32. lia. }
    rewrite He'. replace (e - -8 - (e - 16)) with 24 by lia.
    rewrite Z.shiftl_mul_pow2 by lia.
    pose proof (Z_div_mod (Z.pos m * 2 ^ 24) 8388608 eq_refl) as Hdiv.
    destruct (Z.div_eucl (Z.pos m * 2 ^ 24) 8388608) as [q r].
    change (2 ^ 24) with 16777216 in Hdiv.
    assert (r = 0) by lia. assert (q = Z.pos m~0) by lia. subst. reflexivity. }
  rewrite Hcore, xorb_false_r.
  replace (e - 15) with (e - 16 + 1) by lia.
  apply binary_round_aux_double; [exact Hm | lia].
Qed.

Lemma sample_quotient (sx : bool) (p : positive) :
  Z.pos p <= 32768 ->
  exists k, Z.pos k = 24 - Z.pos (digits2_pos p) /\
    SFdiv prec32 emax32 (binary_round prec32 emax32 sx p 0) f32768
    = S754_finite sx (Pos.iter xO p k) (Z.neg k - 15).
Proof.
  intros Hp. pose proof (digits2_pos_small p Hp) as Hd.
  destruct (binary_round_small sx p) as (k & Hk & Hround); [lia|].
  exists k. split; [exact Hk|]. rewrite Hround.
  apply SFdiv_32768.
  - rewrite digits2_pos_iter_xO. lia.
  - lia.
Qed.

Lemma quotient_value (p k : positive) :
  Qeq (Qmake (Z.pos (Pos.iter xO p k)) (Z.to_pos (2 ^ (- (Z.neg k - 15)))))
      (Z.pos p # 32768).
Proof.
  unfold Qeq. simpl Qnum. simpl Qden.
  rewrite Z2Pos.id by (apply Z.pow_pos_nonneg; lia).
  rewrite Zpos_iter_xO.
  replace (- (Z.neg k - 15)) with (Z.pos k + 15) by lia.
  rewrite Z.pow_add_r by lia. change (2 ^ 15) with 32768. lia.
Qed.

Lemma sample_to_float_exact (s : Z) :
  -32768 <= s <= 32767 ->
  exists q, SF2Q (sample_to_float s) = Some q /\
            Qeq q (s # 32768) /\ Qle (-1) q /\ Qle q 1.
Proof.
  intros Hs.
  assert (Hval : exists q, SF2Q (sample_to_float s) = Some q /\ Qeq q (s # 32768)).
  { destruct s as [|p|p].
    - exists 0%Q. split; reflexivity.
    - destruct (sample_quotient false p) as (k & Hk & Hdiv); [lia|].
      unfold sample_to_float, float32_of_Z, binary_normalize. rewrite Hdiv.
      unfold SF2Q. destruct (Z.leb_spec 0 (Z.neg k - 15)) as [Hge|_]; [lia|].
      eexists. split; [reflexivity|]. apply quotient_value.
    - destruct (sample_quotient true p) as (k & Hk & Hdiv); [lia|].
      unfold sample_to_float, float32_of_Z, binary_normalize. rewrite Hdiv.
      unfold SF2Q. destruct (Z.leb_spec 0 (Z.neg k - 15)) as [Hge|_]; [lia|].
      eexists. split; [reflexivity|].
      change (Z.neg p # 32768) with (Qopp (Z.pos p # 32768)).
      apply Qopp_comp, quotient_value. }
  destruct Hval as (q & Hq & Heq). exists q. split; [exact Hq|]. split; [exact Heq|].
  split.
  - apply Qle_trans with (s # 32768); [unfold Qle; simpl; lia|].
    rewrite Heq. apply Qle_refl.
  - apply Qle_trans with (s # 32768); [rewrite Heq; apply Qle_refl|].
    unfold Qle; simpl; lia.
Qed.

(** A buffer of [2 * n] bytes decodes to [n] samples, pair by pair. *)
Lemma frombuffer_int16_even (n : nat) :
  forall buf, length buf = (2 * n)%nat ->
    exists samples,
      frombuffer_int16 buf = Some samples /\
      length samples = n /\
      Forall (fun s => -32768 <= s <= 32767) samples /\
      (forall i lo hi,
          buf !! (2 * i)%nat = Some lo -> buf !! (2 * i + 1)%nat = Some hi ->
          samples !! i = Some (int16_le lo hi)).
Proof.
  induction n as [|n IH]; intros buf Hlen.
  - destruct buf; [|discriminate]. exists []. repeat split; auto.
    intros i lo hi Hlo. rewrite lookup_nil in Hlo. discriminate.
  - destruct buf as [|lo [|hi rest]]; try (simpl in Hlen; lia).
    destruct (IH rest) as (samples & Hfb & Hn & Hrange & Hidx).
    { simpl in Hlen. lia. }
    exists (int16_le lo hi :: samples).
    split; [simpl; by rewrite Hfb|].
    split; [simpl; by rewrite Hn|].
    split; [constructor; [apply int16_le_range | exact Hrange]|].
    intros [|i] lo' hi' Hlo Hhi.
    + simpl in Hlo, Hhi. by inversion Hlo; inversion Hhi.
    + replace (2 * S i)%nat with (S (S (2 * i))) in Hlo by lia.
      replace (2 * S i + 1)%nat with (S (S (2 * i + 1))) in Hhi by lia.
      simpl in Hlo, Hhi. simpl. by apply Hidx.
Qed.

(** [np.frombuffer] raises exactly on the buffers of odd length. *)
Lemma frombuffer_int16_odd (n : nat) :
  forall buf, length buf = (2 * n + 1)%nat -> frombuffer_int16 buf = None.
Proof.
  induction n as [|n IH]; intros buf Hlen.
  - destruct buf as [|b [|b' rest]]; try (simpl in Hlen; lia). reflexivity.
  - destruct buf as [|lo [|hi rest]]; try (simpl in Hlen; lia).
    simpl. rewrite IH; [reflexivity | simpl in Hlen; lia].
Qed.

Lemma audio_to_float32_even (buf : list byte) :
  Nat.Even (length buf) -> exists a, audio_to_float32 buf = Some a.
Proof.
  intros [n Hn]. destruct (frombuffer_int16_even n buf Hn) as (samples & Hfb & _).
  exists (map sample_to_float samples). unfold audio_to_float32. by rewrite Hfb.
Qed.

Lemma audio_to_float32_some_even (buf : list byte) (a : list spec_float) :
  audio_to_float32 buf = Some a -> Nat.Even (length buf).
Proof.
  intros Ha. destruct (Nat.Even_or_Odd (length buf)) as [He|[n Hn]]; [exact He|].
  unfold audio_to_float32 in Ha. rewrite (frombuffer_int16_odd n buf Hn) in Ha.
  discriminate.
Qed.

(** C8. On every non-empty buffer of whole 16-bit samples the conversion
    step of the dispatcher succeeds: it yields one float per sample, the
    i-th being the float32 quotient of the little-endian signed value of
    bytes [2i], [2i+1] by 32768.0; that float is finite, denotes exactly
    [s / 32768], and lies in [[-1.0, 1.0]]. *)
Theorem sample_conversion_exact (buf : list byte) :
  buf <> [] -> Nat.Even (length buf) ->
  exists samples,
    frombuffer_int16 buf = Some samples /\
    audio_to_float32 buf = Some (map sample_to_float samples) /\
    (2 * length samples = length buf)%nat /\
    (forall i lo hi,
        buf !! (2 * i)%nat = Some lo -> buf !! (2 * i + 1)%nat = Some hi ->
        samples !! i = Some (int16_le lo hi)) /\
    (forall s, In s samples ->
        exists q, SF2Q (sample_to_float s) = Some q /\
                  Qeq q (s # 32768) /\ Qle (-1) q /\ Qle q 1).
Proof.
  intros _ [n Hn].
  destruct (frombuffer_int16_even n buf Hn) as (samples & Hfb & Hlen & Hrange & Hidx).
  exists samples.
  split; [exact Hfb|].
  split; [unfold audio_to_float32; by rewrite Hfb|].
  split; [lia|].
  split; [exact Hidx|].
  intros s Hs. apply sample_to_float_exact.
  rewrite Forall_forall in Hrange. apply Hrange. by apply list_elem_of_In.
Qed.

Lemma sample_conversion_exact_witness :
  exists samples,
    frombuffer_int16 [x00; x80; xff; x7f] = Some samples /\
    audio_to_float32 [x00; x80; xff; x7f] = Some (map sample_to_float samples) /\
    (2 * length samples = length [x00; x80; xff; x7f])%nat /\
    (forall i lo hi,
        [x00; x80; xff; x7f] !! (2 * i)%nat = Some lo ->
        [x00; x80; xff; x7f] !! (2 * i + 1)%nat = Some hi ->
        samples !! i = Some (int16_le lo hi)) /\
    (forall s, In s samples ->
        exists q, SF2Q (sample_to_float s) = Some q /\
                  Qeq q (s # 32768) /\ Qle (-1) q /\ Qle q 1).
Proof.
  apply (sample_conversion_exact [x00; x80; xff; x7f]).
  - discriminate.
  - exists 2%nat. reflexivity.
Defined.

(** The extreme samples: [-32768] becomes [-1.0] and [32767] becomes
    [0.999969482421875]. *)
Example sample_extremes :
  audio_to_float32 [x00; x80; xff; x7f]
  = Some [S754_finite true 8388608 (-23); S754_finite false 16776704 (-24)].
Proof. vm_compute. reflexivity. Qed.

(** An odd number of bytes is not a sequence of samples: numpy raises. *)
Example odd_buffer_raises : audio_to_float32 [x01; x02; x03] = None.
Proof. reflexivity. Qed.

(** ** The monad: evaluation rules and quiet computations *)

Lemma bind_eval {A B : Type} (m : M A) (k : A -> M B) (s : server) :
  (m ≫= k) s = match m s with
               | (Ok a, s') => k a s'
               | (Raise e, s') => (Raise e, s')
               end.
Proof. reflexivity. Qed.

Lemma bind_ok {A B : Type} (m : M A) (k : A -> M B) (s s' : server) (a : A) :
  m s = (Ok a, s') -> (m ≫= k) s = k a s'.
Proof. intros H. rewrite bind_eval. by rewrite H. Qed.

Lemma bind_raise {A B : Type} (m : M A) (k : A -> M B) (s s' : server) (e : exn) :
  m s = (Raise e, s') -> (m ≫= k) s = (Raise e, s').
Proof. intros H. rewrite bind_eval. by rewrite H. Qed.

Lemma get_client_some (client_id : Z) (s : server) (c : client_data) :
  clients s !! client_id = Some c -> get_client client_id s = (Ok c, s).
Proof. intros H. unfold get_client. by rewrite H. Qed.

Lemma get_client_none (client_id : Z) (s : server) :
  clients s !! client_id = None ->
  get_client client_id s = (Raise (mkExn KeyError (pretty client_id)), s).
Proof. intros H. unfold get_client. by rewrite H. Qed.

Lemma set_audio_buffer_some (client_id : Z) (s : server) (c : client_data)
    (buf : list byte) :
  clients s !! client_id = Some c ->
  set_audio_buffer client_id buf s
  = (Ok tt, mkServer (<[client_id := mkClient buf (sample_rate c)]> (clients s))
                     (events s)).
Proof.
  intros H. unfold set_audio_buffer.
  by rewrite (bind_ok _ _ _ _ _ (get_client_some _ _ _ H)).
Qed.

Lemma server_eta (s : server) : mkServer (clients s) (events s) = s.
Proof. by destruct s. Qed.

Lemma quiet_ret {A : Type} (a : A) : quiet (mret a : M A).
Proof.
  intros s r s' H. inversion H; subst. split; [done|].
  exists []. by rewrite app_nil_r.
Qed.

Lemma quiet_raise {A : Type} (e : exn) : quiet (raise e : M A).
Proof.
  intros s r s' H. inversion H; subst. split; [done|].
  exists []. by rewrite app_nil_r.
Qed.

Lemma quiet_lift_res {A : Type} (x : res A) : quiet (lift_res x).
Proof.
  intros s r s' H. inversion H; subst. split; [done|].
  exists []. by rewrite app_nil_r.
Qed.

Lemma quiet_get_client (client_id : Z) : quiet (get_client client_id).
Proof.
  intros s r s' H. unfold get_client in H.
  destruct (clients s !! client_id); inversion H; subst;
    (split; [done|]; exists []; by rewrite app_nil_r).
Qed.

Lemma quiet_emit_error (client_id : Z) (site : log_site) :
  quiet (emit (EvError client_id site)).
Proof.
  intros s r s' H. inversion H; subst. split; [done|].
  by exists [EvError client_id site].
Qed.

Lemma quiet_bind {A B : Type} (m : M A) (k : A -> M B) :
  quiet m -> (forall a, quiet (k a)) -> quiet (m ≫= k).
Proof.
  intros Hm Hk s r s' H. rewrite bind_eval in H.
  destruct (m s) as [[a|e] s1] eqn:Hms.
  - destruct (Hm _ _ _ Hms) as [Hc1 (l1 & He1 & Hl1)].
    destruct (Hk a _ _ _ H) as [Hc2 (l2 & He2 & Hl2)].
    split; [congruence|].
    exists (l1 ++ l2). rewrite He2, He1, app_assoc. split; [done|].
    rewrite forallb_app. by rewrite Hl1, Hl2.
  - inversion H; subst. exact (Hm _ _ _ Hms).
Qed.

Lemma quiet_try {A : Type} (body : M A) (handler : exn -> M A) :
  quiet body -> (forall e, quiet (handler e)) -> quiet (try_except body handler).
Proof.
  intros Hb Hh s r s' H. unfold try_except in H.
  destruct (body s) as [[a|e] s1] eqn:Hbs.
  - inversion H; subst. exact (Hb _ _ _ Hbs).
  - destruct (Hb _ _ _ Hbs) as [Hc1 (l1 & He1 & Hl1)].
    destruct (Hh e _ _ _ H) as [Hc2 (l2 & He2 & Hl2)].
    split; [congruence|].
    exists (l1 ++ l2). rewrite He2, He1, app_assoc. split; [done|].
    rewrite forallb_app. by rewrite Hl1, Hl2.
Qed.

Create HintDb quiet.
#[local] Hint Resolve quiet_ret quiet_raise quiet_lift_res quiet_get_client
  quiet_emit_error : quiet.

Ltac quiet_step :=
  first [ apply quiet_bind; [|intros ?]
        | apply quiet_try; [|intros ?]
        | solve [auto with quiet] ].

Lemma quiet_add_segment (client_id : Z) (segment : pyval) (ts : list pyval) :
  quiet (add_segment client_id segment ts).
Proof.
  unfold add_segment. apply quiet_try.
  - destruct segment; auto with quiet.
    destruct (dict_in "text" d && dict_in "timestamp" d); auto with quiet.
    repeat quiet_step.
  - intros e. repeat quiet_step.
Qed.

(** The loop over the segments never raises: each turn catches its own
    exceptions. *)
Lemma add_segment_returns (client_id : Z) (segment : pyval) (ts : list pyval)
    (s : server) :
  exists ts' s', add_segment client_id segment ts s = (Ok ts', s').
Proof.
  unfold add_segment, try_except.
  match goal with |- context [match ?b s with _ => _ end] =>
    destruct (b s) as [[a|e] s1] end; eauto.
Qed.

Lemma quiet_add_segments (client_id : Z) (segments : list pyval) :
  forall ts, quiet (add_segments client_id segments ts).
Proof.
  induction segments as [|seg rest IH]; intros ts; simpl.
  - auto with quiet.
  - apply quiet_bind; [apply quiet_add_segment | intros ts'; apply IH].
Qed.

Lemma add_segments_returns (client_id : Z) (segments : list pyval) :
  forall ts s, exists ts' s', add_segments client_id segments ts s = (Ok ts', s').
Proof.
  induction segments as [|seg rest IH]; intros ts s; simpl.
  - by exists ts, s.
  - destruct (add_segment_returns client_id seg ts s) as (ts1 & s1 & H1).
    rewrite (bind_ok _ _ _ _ _ H1). apply IH.
Qed.

(** ** The recognition dispatcher *)

Section ServerFacts.
Variable E : env.

(** Reading the timestamp list of a dict result never raises and only
    logs. *)
Lemma timestamps_of_returns (client_id : Z) (d : list (string * pyval))
    (s : server) :
  exists ts s',
    (if dict_in "timestamp" d then
       match dict_get d "timestamp" PNone with
       | PList timestamp_data => add_segments client_id timestamp_data []
       | _ => mret []
       end
     else mret []) s = (Ok ts, s') /\
    clients s' = clients s /\
    exists log, events s' = events s ++ log /\ forallb is_error_event log = true.
Proof.
  assert (Hnil : exists ts s', (mret [] : M (list pyval)) s = (Ok ts, s') /\
                   clients s' = clients s /\
                   exists log, events s' = events s ++ log /\
                               forallb is_error_event log = true).
  { exists [], s. split; [done|]. split; [done|]. exists []. by rewrite app_nil_r. }
  destruct (dict_in "timestamp" d); [|exact Hnil].
  destruct (dict_get d "timestamp" PNone); try exact Hnil.
  destruct (add_segments_returns client_id l [] s) as (ts & s' & H).
  exists ts, s'. split; [exact H|].
  exact (quiet_add_segments client_id l [] _ _ _ H).
Qed.

(** The [try]/[except] statement always produces an answer, touches no
    session, and the answer is determined by what the recognizer did. *)
Lemma run_model_answer (client_id : Z) (a : list spec_float) (rate : pyval)
    (s : server) :
  exists r s',
    run_model E client_id a rate s = (Ok r, s') /\
    clients s' = clients s /\
    (exists log, events s' = events s ++ log /\ forallb is_error_event log = true) /\
    answer_for (generate E a rate) r.
Proof.
  unfold run_model, try_except, answer_for.
  rewrite bind_eval. unfold lift_res at 1.
  destruct (generate E a rate) as [result|e].
  - destruct result;
      try (eexists _, _; split; [reflexivity|]; split; [done|];
           split; [by eexists [_] | reflexivity]).
    rewrite bind_eval.
    destruct (timestamps_of_returns client_id d s)
      as (ts & s1 & Hts & Hc1 & l1 & He1 & Hl1).
    rewrite Hts. rewrite bind_eval. unfold lift_res.
    destruct (py_len (dict_get d "text" (PStr ""))) as [n|e].
    + eexists _, s1. split; [reflexivity|]. split; [done|].
      split; [by exists l1|]. by exists ts.
    + eexists _, _. split; [reflexivity|]. split; [done|].
      split; [|reflexivity].
      exists (l1 ++ [EvError client_id (LogRecognizeError e)]). simpl.
      rewrite He1, app_assoc. split; [done|].
      rewrite forallb_app, Hl1. reflexivity.
  - eexists _, _. split; [reflexivity|]. split; [done|].
    split; [by eexists [_] | reflexivity].
Qed.

(** [recognize_audio] on a registered session: the three ways it can
    go. *)
Lemma recognize_audio_empty (client_id : Z) (s : server) (c : client_data) :
  clients s !! client_id = Some c -> audio_buffer c = [] ->
  recognize_audio E client_id s
  = (Ok result_empty,
     mkServer (clients s)
              (events s ++ [EvDispatch client_id [] (sample_rate c)])).
Proof.
  intros Hc Hbuf. unfold recognize_audio.
  rewrite (bind_ok _ _ _ _ _ (get_client_some _ _ _ Hc)).
  rewrite Hbuf. reflexivity.
Qed.

Lemma recognize_audio_odd (client_id : Z) (s : server) (c : client_data) :
  clients s !! client_id = Some c -> audio_to_float32 (audio_buffer c) = None ->
  recognize_audio E client_id s
  = (Raise (mkExn ValueError "buffer size must be a multiple of element size"),
     mkServer (clients s)
              (events s ++ [EvDispatch client_id (audio_buffer c) (sample_rate c)])).
Proof.
  intros Hc Hodd. unfold recognize_audio.
  rewrite (bind_ok _ _ _ _ _ (get_client_some _ _ _ Hc)).
  destruct (audio_buffer c) as [|b buf] eqn:Hbuf; [discriminate|].
  rewrite bind_eval. unfold emit at 1. rewrite bind_eval, Hodd. reflexivity.
Qed.

Lemma recognize_audio_model (client_id : Z) (s : server) (c : client_data)
    (a : list spec_float) :
  clients s !! client_id = Some c -> audio_buffer c <> [] ->
  audio_to_float32 (audio_buffer c) = Some a ->
  recognize_audio E client_id s
  = run_model E client_id a (sample_rate c)
      (mkServer (clients s)
                (events s ++ [EvDispatch client_id (audio_buffer c) (sample_rate c)])).
Proof.
  intros Hc Hne Ha. unfold recognize_audio.
  rewrite (bind_ok _ _ _ _ _ (get_client_some _ _ _ Hc)).
  destruct (audio_buffer c) as [|b buf] eqn:Hbuf; [done|].
  rewrite bind_eval. unfold emit at 1. rewrite bind_eval, Ha. reflexivity.
Qed.
End ServerFacts.

Section Dispatch.
Variable E : env.

(** [recognize_audio] returns a result exactly on the registered
    sessions whose buffer holds whole samples. *)
Lemma recognize_audio_returns (client_id : Z) (s : server) (c : client_data) :
  clients s !! client_id = Some c -> Nat.Even (length (audio_buffer c)) ->
  exists r s', recognize_audio E client_id s = (Ok r, s') /\
               clients s' = clients s.
Proof.
  intros Hc Heven.
  destruct (audio_buffer c) as [|b buf] eqn:Hbuf.
  - rewrite (recognize_audio_empty E _ _ _ Hc Hbuf). by eexists _, _.
  - destruct (audio_to_float32_even _ Heven) as [a Ha].
    rewrite <- Hbuf in Ha.
    rewrite (recognize_audio_model E _ _ _ a Hc) by (done || congruence).
    destruct (run_model_answer E client_id a (sample_rate c)
                (mkServer (clients s)
                   (events s ++ [EvDispatch client_id (audio_buffer c) (sample_rate c)])))
      as (r & s' & Hrun & Hcl & _).
    by exists r, s'.
Qed.

Lemma recognize_and_reply_ok (client_id : Z) (s s1 : server)
    (c : client_data) (r : pyval) :
  clients s !! client_id = Some c ->
  recognize_audio E client_id s = (Ok r, s1) ->
  clients s1 = clients s ->
  send_ok E r = true ->
  recognize_and_reply E client_id s
  = (Ok tt, mkServer (<[client_id := mkClient [] (sample_rate c)]> (clients s))
                     (events s1 ++ [EvSend client_id r])).
Proof.
  intros Hc Hrec Hcl Hsend. unfold recognize_and_reply.
  rewrite (bind_ok _ _ _ _ _ Hrec). rewrite bind_eval.
  unfold ws_send. rewrite Hsend. unfold emit at 1.
  erewrite set_audio_buffer_some; [|simpl; by rewrite Hcl].
  simpl. by rewrite Hcl.
Qed.

Lemma handle_binary_below (client_id : Z) (s : server) (c : client_data)
    (b : list byte) :
  clients s !! client_id = Some c ->
  Z.of_nat (length (audio_buffer c ++ b)) <= 32000 ->
  handle_message E client_id (WsBinary b) s
  = (Ok tt, mkServer (<[client_id := mkClient (audio_buffer c ++ b) (sample_rate c)]>
                        (clients s))
                     (events s)).
Proof.
  intros Hc Hlen. unfold handle_message.
  rewrite (bind_ok _ _ _ _ _ (get_client_some _ _ _ Hc)).
  rewrite (bind_ok _ _ _ _ _ (set_audio_buffer_some _ _ _ _ Hc)).
  erewrite bind_ok; [|apply get_client_some; simpl; apply lookup_insert_eq].
  simpl. destruct (Z.ltb_spec 32000 (Z.of_nat (length (audio_buffer c ++ b)))); [lia|].
  reflexivity.
Qed.

Lemma handle_binary_above (client_id : Z) (s : server) (c : client_data)
    (b : list byte) :
  clients s !! client_id = Some c ->
  32000 < Z.of_nat (length (audio_buffer c ++ b)) ->
  handle_message E client_id (WsBinary b) s
  = recognize_and_reply E client_id
      (mkServer (<[client_id := mkClient (audio_buffer c ++ b) (sample_rate c)]>
                   (clients s))
                (events s)).
Proof.
  intros Hc Hlen. unfold handle_message.
  rewrite (bind_ok _ _ _ _ _ (get_client_some _ _ _ Hc)).
  rewrite (bind_ok _ _ _ _ _ (set_audio_buffer_some _ _ _ _ Hc)).
  erewrite bind_ok; [|apply get_client_some; simpl; apply lookup_insert_eq].
  simpl. destruct (Z.ltb_spec 32000 (Z.of_nat (length (audio_buffer c ++ b)))); [|lia].
  reflexivity.
Qed.

(** An [eof] control message runs the dispatch. *)
Lemma handle_eof (client_id : Z) (s : server) (m : string)
    (d : list (string * pyval)) :
  json_loads E m = Ok (PDict d) -> dict_lookup "type" d = Some (PStr "eof") ->
  handle_message E client_id (WsText m) s = recognize_and_reply E client_id s.
Proof.
  intros Hm Hty. unfold handle_message. rewrite Hm.
  rewrite bind_eval. unfold lift_res at 1. rewrite bind_eval.
  unfold lift_res at 1, py_get, dict_get. rewrite Hty. reflexivity.
Qed.

(** C5. When the recognizer raises on a non-empty buffer,
    [recognize_audio] catches the exception and returns the result with
    empty text, the exception's message as error and no timestamps,
    leaving every session as it was; the dispatch around it (over a
    connection that accepts the reply) sends that result, keeps the
    session's entry and sample rate, and clears its buffer; a frame
    received afterwards is buffered as usual. *)
Theorem recognizer_failure_contained (client_id : Z) (s : server)
    (c : client_data) (a : list spec_float) (e : exn) :
  clients s !! client_id = Some c ->
  audio_buffer c <> [] ->
  audio_to_float32 (audio_buffer c) = Some a ->
  generate E a (sample_rate c) = Raise e ->
  let failed := PDict [("text", PStr ""); ("error", PStr (exn_str e));
                       ("timestamps", PList [])] in
  let trace := events s ++ [EvDispatch client_id (audio_buffer c) (sample_rate c);
                            EvError client_id (LogRecognizeError e)] in
  recognize_audio E client_id s = (Ok failed, mkServer (clients s) trace) /\
  (send_ok E failed = true ->
   let s' := mkServer (<[client_id := mkClient [] (sample_rate c)]> (clients s))
                      (trace ++ [EvSend client_id failed]) in
   recognize_and_reply E client_id s = (Ok tt, s') /\
   forall b, Z.of_nat (length b) <= 32000 ->
     handle_message E client_id (WsBinary b) s'
     = (Ok tt, mkServer (<[client_id := mkClient b (sample_rate c)]> (clients s'))
                        (events s'))).
Proof.
  intros Hc Hne Ha Hgen failed trace.
  assert (Hrec : recognize_audio E client_id s
                 = (Ok failed, mkServer (clients s) trace)).
  { rewrite (recognize_audio_model E _ _ _ a Hc Hne Ha).
    unfold run_model, try_except. rewrite bind_eval. unfold lift_res at 1.
    rewrite Hgen. unfold trace, failed. rewrite bind_eval. unfold emit.
    simpl. by rewrite <- app_assoc. }
  split; [exact Hrec|].
  intros Hsend s'. split.
  - exact (recognize_and_reply_ok _ _ _ _ _ Hc Hrec eq_refl Hsend).
  - intros b Hb.
    apply (handle_binary_below client_id s' (mkClient [] (sample_rate c)) b).
    + simpl. apply lookup_insert_eq.
    + exact Hb.
Qed.

(** C10, as the code has it. Every value [recognize_audio] returns is a
    dict with a "text" key and a "timestamps" key holding a list. On an
    empty buffer the text is the empty string and there is no "error"
    key. On a non-empty buffer: if the recognizer raises, or returns a
    value that is not a dict, or returns a dict whose text has no
    length, the text is the empty string, the timestamps are empty and
    "error" holds the message; otherwise the text is the recognizer's
    own "text" value (the empty string when absent) and there is no
    "error" key. *)
Theorem dispatch_result_shape (client_id : Z) (s s' : server) (r : pyval) :
  recognize_audio E client_id s = (Ok r, s') ->
  exists c d text ts,
    clients s !! client_id = Some c /\
    r = PDict d /\
    dict_lookup "text" d = Some text /\
    dict_lookup "timestamps" d = Some (PList ts) /\
    (audio_buffer c = [] ->
       text = PStr "" /\ ts = [] /\ dict_in "error" d = false) /\
    (audio_buffer c <> [] ->
       exists a, audio_to_float32 (audio_buffer c) = Some a /\
         match generate E a (sample_rate c) with
         | Raise e =>
             text = PStr "" /\ ts = [] /\
             dict_lookup "error" d = Some (PStr (exn_str e))
         | Ok (PDict m) =>
             match py_len (dict_get m "text" (PStr "")) with
             | Ok _ =>
                 text = dict_get m "text" (PStr "") /\ dict_in "error" d = false
             | Raise e =>
                 text = PStr "" /\ ts = [] /\
                 dict_lookup "error" d = Some (PStr (exn_str e))
             end
         | Ok _ =>
             text = PStr "" /\ ts = [] /\
             dict_lookup "error" d = Some (PStr bad_shape_message)
         end).
Proof.
  intros Hrec.
  destruct (clients s !! client_id) as [c|] eqn:Hc.
  2: { unfold recognize_audio in Hrec.
       rewrite (bind_raise _ _ _ _ _ (get_client_none _ _ Hc)) in Hrec.
       discriminate. }
  assert (Hcase : audio_buffer c = [] \/ audio_buffer c <> []).
  { destruct (audio_buffer c); [by left | by right]. }
  destruct Hcase as [Hbuf|Hne].
  - rewrite (recognize_audio_empty E _ _ _ Hc Hbuf) in Hrec.
    inversion Hrec; subst.
    exists c, [("text", PStr ""); ("timestamps", PList [])], (PStr ""), [].
    repeat split; done.
  - destruct (audio_to_float32 (audio_buffer c)) as [a|] eqn:Ha.
    2: { rewrite (recognize_audio_odd E _ _ _ Hc Ha) in Hrec. discriminate. }
    rewrite (recognize_audio_model E _ _ _ a Hc Hne Ha) in Hrec.
    destruct (run_model_answer E client_id a (sample_rate c)
                (mkServer (clients s)
                   (events s ++ [EvDispatch client_id (audio_buffer c) (sample_rate c)])))
      as (r' & s1 & Hrun & _ & _ & Hans).
    rewrite Hrun in Hrec. inversion Hrec; subst r' s1. clear Hrec.
    unfold answer_for in Hans.
    assert (Herr : forall msg, r = result_error msg ->
              exists d text ts, r = PDict d /\
                dict_lookup "text" d = Some text /\
                dict_lookup "timestamps" d = Some (PList ts) /\
                text = PStr "" /\ ts = [] /\
                dict_lookup "error" d = Some (PStr msg)).
    { intros msg ->. eexists _, _, _. repeat split; reflexivity. }
    destruct (generate E a (sample_rate c)) as [result|e] eqn:Hgen.
    + destruct result;
        try (destruct (Herr _ Hans) as (d0 & text & ts & Hr & Ht & Hts & H1 & H2 & H3);
             exists c, d0, text, ts;
             repeat split; try done;
             intros _; exists a; split; [done|]; rewrite Hgen; done).
      destruct (py_len (dict_get d "text" (PStr ""))) as [n|e] eqn:Hlen.
      * destruct Hans as [ts ->].
        exists c, [("text", dict_get d "text" (PStr "")); ("timestamps", PList ts)],
               (dict_get d "text" (PStr "")), ts.
        repeat split; try done.
        intros _. exists a. split; [done|]. rewrite Hgen, Hlen. done.
      * destruct (Herr _ Hans) as (d0 & text & ts & Hr & Ht & Hts & H1 & H2 & H3).
        exists c, d0, text, ts. repeat split; try done.
        intros _. exists a. split; [done|]. rewrite Hgen, Hlen. done.
    + destruct (Herr _ Hans) as (d0 & text & ts & Hr & Ht & Hts & H1 & H2 & H3).
      exists c, d0, text, ts. repeat split; try done.
      intros _. exists a. split; [done|]. rewrite Hgen. done.
Qed.
End Dispatch.

(** ** The session loop *)

Section Session.
Variable E : env.

Lemma run_model_quiet (client_id : Z) (a : list spec_float) (rate : pyval) :
  quiet (run_model E client_id a rate).
Proof.
  unfold run_model. apply quiet_try.
  - apply quiet_bind; [auto with quiet|]. intros result.
    destruct result; try (repeat quiet_step).
    + destruct (dict_in "timestamp" d); [|auto with quiet].
      destruct (dict_get d "timestamp" PNone); auto with quiet.
      apply quiet_add_segments.
  - intros e. repeat quiet_step.
Qed.

(** A dispatch on a non-empty buffer of whole samples: one [EvDispatch]
    carrying the buffer, then error records only. *)
Lemma recognize_audio_trace (client_id : Z) (s : server) (c : client_data) :
  clients s !! client_id = Some c ->
  audio_buffer c <> [] ->
  Nat.Even (length (audio_buffer c)) ->
  exists r s' log,
    recognize_audio E client_id s = (Ok r, s') /\
    clients s' = clients s /\
    events s' = events s
                ++ [EvDispatch client_id (audio_buffer c) (sample_rate c)] ++ log /\
    forallb is_error_event log = true.
Proof.
  intros Hc Hne Heven.
  destruct (audio_to_float32_even _ Heven) as [a Ha].
  rewrite (recognize_audio_model E _ _ _ a Hc Hne Ha).
  destruct (run_model_answer E client_id a (sample_rate c)
              (mkServer (clients s)
                 (events s ++ [EvDispatch client_id (audio_buffer c) (sample_rate c)])))
    as (r & s' & Hrun & Hcl & (log & Hev & Hlog) & _).
  exists r, s', log. split; [exact Hrun|]. split; [exact Hcl|].
  split; [|exact Hlog]. simpl in Hev. by rewrite Hev, <- app_assoc.
Qed.

(** [recognize_audio] never touches [self.clients]. *)
Lemma recognize_audio_clients (client_id : Z) (s s' : server) (r : res pyval) :
  recognize_audio E client_id s = (r, s') -> clients s' = clients s.
Proof.
  intros H.
  destruct (clients s !! client_id) as [c|] eqn:Hc.
  2: { unfold recognize_audio in H.
       rewrite (bind_raise _ _ _ _ _ (get_client_none _ _ Hc)) in H.
       by inversion H. }
  assert (Hcase : audio_buffer c = [] \/ audio_buffer c <> []).
  { destruct (audio_buffer c); [by left | by right]. }
  destruct Hcase as [Hbuf|Hne].
  - rewrite (recognize_audio_empty E _ _ _ Hc Hbuf) in H. by inversion H.
  - destruct (audio_to_float32 (audio_buffer c)) as [a|] eqn:Ha.
    + rewrite (recognize_audio_model E _ _ _ a Hc Hne Ha) in H.
      by destruct (run_model_quiet client_id a (sample_rate c) _ _ _ H).
    + rewrite (recognize_audio_odd E _ _ _ Hc Ha) in H. by inversion H.
Qed.

Lemma message_loop_cons (client_id : Z) (m : ws_message)
    (rest : list ws_message) (s : server) :
  message_loop E client_id (m :: rest) s
  = match handle_message E client_id m s with
    | (Ok _, s1) => message_loop E client_id rest s1
    | (Raise e, s1) => (Raise e, s1)
    end.
Proof. reflexivity. Qed.

Lemma message_loop_app (client_id : Z) (pre post : list ws_message) :
  forall s,
    message_loop E client_id (pre ++ post) s
    = match message_loop E client_id pre s with
      | (Ok _, s1) => message_loop E client_id post s1
      | (Raise e, s1) => (Raise e, s1)
      end.
Proof.
  induction pre as [|m pre IH]; intros s.
  - reflexivity.
  - rewrite <- app_comm_cons, !message_loop_cons.
    destruct (handle_message E client_id m s) as [[[]|e] s1]; [apply IH | reflexivity].
Qed.

(** Frames that keep the buffer within the threshold are appended and
    nothing else happens. *)
Lemma message_loop_below (client_id : Z) (frames : list (list byte)) :
  forall s c,
    clients s !! client_id = Some c ->
    Z.of_nat (length (audio_buffer c ++ concat frames)) <= 32000 ->
    message_loop E client_id (WsBinary <$> frames) s
    = (Ok tt,
       mkServer (<[client_id := mkClient (audio_buffer c ++ concat frames)
                                         (sample_rate c)]> (clients s))
                (events s)).
Proof.
  induction frames as [|f rest IH]; intros s c Hc Hlen.
  - simpl. rewrite app_nil_r. destruct c as [buf rate]; simpl.
    rewrite (insert_id _ _ _ Hc). by rewrite server_eta.
  - simpl in Hlen. rewrite fmap_cons, message_loop_cons.
    rewrite (handle_binary_below E client_id s c f Hc).
    2: { rewrite app_assoc, length_app in Hlen. lia. }
    rewrite (IH _ (mkClient (audio_buffer c ++ f) (sample_rate c))).
    + simpl. by rewrite insert_insert_eq, app_assoc.
    + simpl. apply lookup_insert_eq.
    + simpl. by rewrite <- app_assoc.
Qed.

(** C1, as the code has it. Starting from an empty buffer, as long as
    the bytes received stay within 32000 nothing is dispatched; at the
    first frame that takes the total strictly above 32000 (the total
    being whole samples, over a connection that accepts the reply)
    exactly one dispatch fires, on exactly the bytes received so far,
    its result is sent, and the buffer is empty afterwards. *)
Theorem threshold_dispatch (client_id : Z) (s : server) (c : client_data)
    (frames : list (list byte)) (last : list byte) :
  clients s !! client_id = Some c ->
  audio_buffer c = [] ->
  Z.of_nat (length (concat frames)) <= 32000 ->
  32000 < Z.of_nat (length (concat frames ++ last)) ->
  Nat.even (length (concat frames ++ last)) = true ->
  (forall r, send_ok E r = true) ->
  exists s1 s2 result log,
    message_loop E client_id (WsBinary <$> frames) s = (Ok tt, s1) /\
    events s1 = events s /\
    clients s1 !! client_id = Some (mkClient (concat frames) (sample_rate c)) /\
    handle_message E client_id (WsBinary last) s1 = (Ok tt, s2) /\
    events s2 = events s
                ++ [EvDispatch client_id (concat frames ++ last) (sample_rate c)]
                ++ log ++ [EvSend client_id result] /\
    forallb is_error_event log = true /\
    clients s2 !! client_id = Some (mkClient [] (sample_rate c)).
Proof.
  intros Hc Hbuf Hpre Hlast Heven Hsend.
  apply Nat.even_spec in Heven.
  pose proof (message_loop_below client_id frames s c Hc) as Hloop.
  rewrite Hbuf in Hloop. simpl in Hloop. specialize (Hloop Hpre).
  set (c1 := mkClient (concat frames) (sample_rate c)) in *.
  set (s1 := mkServer (<[client_id := c1]> (clients s)) (events s)) in *.
  assert (Hc1 : clients s1 !! client_id = Some c1) by apply lookup_insert_eq.
  set (c2 := mkClient (concat frames ++ last) (sample_rate c)).
  set (s1' := mkServer (<[client_id := c2]> (clients s1)) (events s1)).
  assert (Hc2 : clients s1' !! client_id = Some c2) by apply lookup_insert_eq.
  assert (Hne : audio_buffer c2 <> []).
  { simpl. intros Hnil. rewrite Hnil in Hlast. simpl in Hlast. lia. }
  destruct (recognize_audio_trace client_id s1' c2 Hc2 Hne Heven)
    as (r & s' & log & Hrec & Hcl & Hev & Hlog).
  exists s1, (mkServer (<[client_id := mkClient [] (sample_rate c2)]> (clients s1'))
                       (events s' ++ [EvSend client_id r])), r, log.
  split; [exact Hloop|]. split; [reflexivity|]. split; [exact Hc1|].
  split.
  - rewrite (handle_binary_above E client_id s1 c1 last Hc1 Hlast).
    exact (recognize_and_reply_ok E _ _ _ _ _ Hc2 Hrec Hcl (Hsend r)).
  - split; [|split; [exact Hlog | apply lookup_insert_eq]].
    simpl. rewrite Hev. simpl. by rewrite <- !app_assoc.
Qed.

(** The text branch cannot get past a message that [json.loads]
    rejects. *)
Lemma handle_malformed (client_id : Z) (m : string) (e : exn) (s : server) :
  json_loads E m = Raise e ->
  handle_message E client_id (WsText m) s = (Raise e, s).
Proof. intros Hm. unfold handle_message. by rewrite Hm. Qed.

(** C2, as the code has it. A control message that [json.loads] rejects
    raises out of the message loop with the server untouched; the
    session's handler logs the error and its [finally] clause deletes
    the session: the entry is gone, and the messages behind the
    malformed one are never processed. *)
Theorem malformed_control_ends_session (client_id : Z) (s : server)
    (pre post : list ws_message) (m : string) (e : exn) :
  json_loads E m = Raise e ->
  exn_kind e = JSONDecodeError ->
  (forall s0, handle_message E client_id (WsText m) s0 = (Raise e, s0)) /\
  process_audio E client_id (pre ++ WsText m :: post) s
  = process_audio E client_id (pre ++ [WsText m]) s /\
  clients (process_audio E client_id (pre ++ WsText m :: post) s) !! client_id
  = None /\
  (forall s1,
      message_loop E client_id pre (register client_id s) = (Ok tt, s1) ->
      process_audio E client_id (pre ++ WsText m :: post) s
      = mkServer (delete client_id (clients s1))
                 (events s1 ++ [EvError client_id (LogSessionError e)])).
Proof.
  intros Hm Hkind.
  assert (Hstop : forall tail s0,
             message_loop E client_id (WsText m :: tail) s0 = (Raise e, s0)).
  { intros tail s0. rewrite message_loop_cons.
    by rewrite (handle_malformed client_id m e s0 Hm). }
  split; [intros s0; by apply handle_malformed|].
  split; [|split].
  - unfold process_audio. rewrite !message_loop_app.
    destruct (message_loop E client_id pre _) as [[[]|e0] s1]; [|reflexivity].
    by rewrite !Hstop.
  - unfold process_audio.
    destruct (message_loop E client_id (pre ++ WsText m :: post) _) as [r s2].
    simpl. apply lookup_delete_eq.
  - intros s1 Hpre. unfold process_audio. fold (register client_id s).
    rewrite message_loop_app, Hpre, Hstop. by rewrite Hkind.
Qed.
End Session.

(** ** Sample alignment of the buffers *)

Lemma preserves_bind {A B : Type} (P : server -> Prop) (m : M A) (k : A -> M B) :
  preserves P m -> (forall a, preserves P (k a)) -> preserves P (m ≫= k).
Proof.
  intros Hm Hk s r s' HP H. rewrite bind_eval in H.
  destruct (m s) as [[a|e] s1] eqn:Hms.
  - exact (Hk a _ _ _ (Hm _ _ _ HP Hms) H).
  - inversion H; subst. exact (Hm _ _ _ HP Hms).
Qed.

Lemma aligned_same_clients (s s' : server) :
  clients s' = clients s -> buffers_aligned s -> buffers_aligned s'.
Proof. intros Hcl Hal client_id c Hc. rewrite Hcl in Hc. exact (Hal _ _ Hc). Qed.

Lemma aligned_quiet {A : Type} (m : M A) : quiet m -> preserves buffers_aligned m.
Proof.
  intros Hq s r s' Hal H. destruct (Hq _ _ _ H) as [Hcl _].
  exact (aligned_same_clients _ _ Hcl Hal).
Qed.

Lemma aligned_emit (ev : event) : preserves buffers_aligned (emit ev).
Proof.
  intros s r s' Hal H. inversion H; subst.
  by apply (aligned_same_clients s).
Qed.

Lemma aligned_put_client (client_id : Z) (c : client_data) :
  Nat.Even (length (audio_buffer c)) ->
  preserves buffers_aligned (put_client client_id c).
Proof.
  intros Heven s r s' Hal H. inversion H; subst. intros j cj Hj. simpl in Hj.
  destruct (decide (client_id = j)) as [->|Hne].
  - rewrite lookup_insert_eq in Hj. by inversion Hj; subst.
  - rewrite lookup_insert_ne in Hj by done. exact (Hal _ _ Hj).
Qed.

(** After [self.clients[client_id]] has been read, its buffer is known to
    be aligned. *)
Lemma aligned_with_client {B : Type} (client_id : Z) (k : client_data -> M B) :
  (forall c, Nat.Even (length (audio_buffer c)) -> preserves buffers_aligned (k c)) ->
  preserves buffers_aligned (get_client client_id ≫= k).
Proof.
  intros Hk s r s' Hal H. rewrite bind_eval in H. unfold get_client in H.
  destruct (clients s !! client_id) as [c|] eqn:Hc.
  - exact (Hk c (Hal _ _ Hc) _ _ _ Hal H).
  - by inversion H; subst.
Qed.

Lemma aligned_set_audio_buffer (client_id : Z) (buf : list byte) :
  Nat.Even (length buf) ->
  preserves buffers_aligned (set_audio_buffer client_id buf).
Proof.
  intros Heven. apply aligned_with_client. intros c _.
  by apply aligned_put_client.
Qed.

Lemma aligned_set_sample_rate (client_id : Z) (rate : pyval) :
  preserves buffers_aligned (set_sample_rate client_id rate).
Proof.
  apply aligned_with_client. intros c Hc. by apply aligned_put_client.
Qed.

Section Alignment.
Variable E : env.

Lemma aligned_recognize_audio (client_id : Z) :
  preserves buffers_aligned (recognize_audio E client_id).
Proof.
  intros s r s' Hal H.
  exact (aligned_same_clients _ _ (recognize_audio_clients E _ _ _ _ H) Hal).
Qed.

Lemma aligned_ws_send (client_id : Z) (result : pyval) :
  preserves buffers_aligned (ws_send E client_id result).
Proof.
  unfold ws_send. destruct (send_ok E result).
  - apply aligned_emit.
  - apply aligned_quiet, quiet_raise.
Qed.

Lemma aligned_recognize_and_reply (client_id : Z) :
  preserves buffers_aligned (recognize_and_reply E client_id).
Proof.
  unfold recognize_and_reply.
  apply preserves_bind; [apply aligned_recognize_audio | intros result].
  apply preserves_bind; [apply aligned_ws_send | intros _].
  apply aligned_set_audio_buffer. by exists 0%nat.
Qed.

Lemma aligned_handle_message (client_id : Z) (message : ws_message) :
  frames_aligned [message] ->
  preserves buffers_aligned (handle_message E client_id message).
Proof.
  intros Hframe. destruct message as [m|b]; simpl.
  - apply preserves_bind; [apply aligned_quiet, quiet_lift_res | intros data].
    apply preserves_bind; [apply aligned_quiet, quiet_lift_res | intros ty].
    destruct (py_eq_str ty "config").
    + apply preserves_bind; [apply aligned_quiet, quiet_lift_res | intros rate].
      apply aligned_set_sample_rate.
    + destruct (py_eq_str ty "eof").
      * apply aligned_recognize_and_reply.
      * apply aligned_quiet, quiet_ret.
  - assert (Hb : Nat.Even (length b)) by (apply Hframe; by left).
    apply aligned_with_client. intros c Hc.
    apply preserves_bind.
    + apply aligned_set_audio_buffer. rewrite length_app.
      destruct Hc as [x Hx], Hb as [y Hy]. exists (x + y)%nat. lia.
    + intros _. apply preserves_bind; [apply aligned_quiet, quiet_get_client|].
      intros c'. destruct (32000 <? Z.of_nat (length (audio_buffer c'))).
      * apply aligned_recognize_and_reply.
      * apply aligned_quiet, quiet_ret.
Qed.

Lemma aligned_message_loop (client_id : Z) (messages : list ws_message) :
  frames_aligned messages ->
  preserves buffers_aligned (message_loop E client_id messages).
Proof.
  induction messages as [|m rest IH]; intros Hframes; simpl.
  - apply aligned_quiet, quiet_ret.
  - apply preserves_bind.
    + apply aligned_handle_message. intros b [Hb|[]]. apply Hframes. by left.
    + intros _. apply IH. intros b Hb. apply Hframes. by right.
Qed.

(** C7, as the code has it. When every binary frame holds whole 16-bit
    samples, every buffer of the server holds whole samples at every
    point of a session: after each prefix of the messages, whatever
    they are and however the loop ends, and after the session is
    closed. *)
Theorem aligned_frames_keep_buffers_aligned (client_id : Z)
    (messages : list ws_message) (s : server) :
  buffers_aligned s ->
  frames_aligned messages ->
  (forall n, buffers_aligned
               (snd (message_loop E client_id (take n messages)
                       (register client_id s)))) /\
  buffers_aligned (process_audio E client_id messages s).
Proof.
  intros Hal Hframes.
  assert (Hreg : buffers_aligned (register client_id s)).
  { apply (aligned_put_client client_id (mkClient [] (PInt 16000))
             (ltac:(by exists 0%nat)) s (Ok tt) _ Hal).
    reflexivity. }
  split.
  - intros n.
    destruct (message_loop E client_id (take n messages) (register client_id s))
      as [r s'] eqn:Hrun.
    simpl. refine (aligned_message_loop client_id _ _ _ _ _ Hreg Hrun).
    intros b Hb. apply Hframes.
    apply list_elem_of_In. apply list_elem_of_In in Hb.
    exact (subseteq_take n messages _ Hb).
  - unfold process_audio. fold (register client_id s).
    destruct (message_loop E client_id messages (register client_id s))
      as [r s2] eqn:Hrun.
    pose proof (aligned_message_loop client_id messages Hframes _ _ _ Hreg Hrun)
      as Hal2.
    assert (Hal3 : forall ev, buffers_aligned (mkServer (clients s2) ev)).
    { intros ev. by apply (aligned_same_clients s2). }
    intros j cj Hj. simpl in Hj.
    apply lookup_delete_Some in Hj as [_ Hj].
    destruct r as [[]|e]; [exact (Hal2 _ _ Hj)|].
    destruct (exn_kind e); simpl in Hj; exact (Hal2 _ _ Hj).
Qed.
End Alignment.

(** ** The transcript aggregator *)

Lemma contains_empty (s : string) : contains "" s = true.
Proof. by destruct s. Qed.

Lemma prefix_refl (s : string) : String.prefix s s = true.
Proof.
  induction s as [|ch s IH]; simpl; [reflexivity|].
  destruct (Ascii.ascii_dec ch ch); [exact IH | congruence].
Qed.

Lemma contains_step (t : string) (ch : Ascii.ascii) (s : string) :
  contains t (String ch s)
  = if String.prefix t (String ch s) then true else contains t s.
Proof. reflexivity. Qed.

Lemma endswith_step (ch : Ascii.ascii) (s t : string) :
  endswith (String ch s) t
  = if String.eqb (String ch s) t then true else endswith s t.
Proof. reflexivity. Qed.

(** The suffix test of the aggregator is subsumed by its substring test. *)
Lemma endswith_contains (s t : string) : endswith s t = true -> contains t s = true.
Proof.
  induction s as [|ch s IH].
  - destruct t; intros H; [reflexivity | discriminate H].
  - intros H. rewrite contains_step.
    rewrite endswith_step in H.
    destruct (String.eqb_spec (String ch s) t) as [<-|Hne].
    + by rewrite prefix_refl.
    + destruct (String.prefix t (String ch s)); [reflexivity | by apply IH].
Qed.

Section Aggregator.
Variable loads : string -> res pyval.

(** C4. A received result that is a dict without an "error" key and
    with the string [t] as its "text": when [t] is empty the client
    state does not change; otherwise [current_text] becomes [t], and
    [t] is appended to [accumulated_text] (after one space, unless the
    accumulated text was empty) exactly when the accumulated text
    neither ends with [t] nor contains it; in the other case the
    accumulated text stays as it was. *)
Theorem on_result_aggregates (now : Q) (message : string)
    (d : list (string * pyval)) (t : string) (c : ASRClient) :
  loads message = Ok (PDict d) ->
  dict_in "error" d = false ->
  dict_lookup "text" d = Some (PStr t) ->
  let c' := handle_result loads now message c in
  let acc := accumulated_text c in
  (t = "" -> c' = c) /\
  (t <> "" ->
     current_text c' = PStr t /\
     (endswith acc t = false /\ contains t acc = false ->
        accumulated_text c'
        = if String.eqb acc "" then t else acc +:+ " " +:+ t) /\
     (endswith acc t = true \/ contains t acc = true ->
        accumulated_text c' = acc) /\
     is_recording c' = is_recording c /\
     session_start_time c' = session_start_time c /\
     client_log c' = client_log c /\
     exists frame, screens c' = screens c ++ [frame] /\
                   shown_text frame = PStr t).
Proof.
  intros Hmsg Herr Htext c' acc. subst c'. unfold handle_result.
  rewrite Hmsg, Herr. unfold dict_in, dict_get. rewrite Htext.
  split.
  - intros ->. reflexivity.
  - intros Hne. simpl truthy.
    destruct (String.eqb_spec t "") as [->|_]; [done|]. simpl negb.
    unfold merge_text, display_results. simpl truthy.
    destruct (String.eqb_spec t "") as [->|_]; [done|]. simpl.
    fold acc.
    destruct (endswith acc t) eqn:Hends, (contains t acc) eqn:Hcont; simpl;
      try (destruct (String.eqb_spec acc "") as [Hacc|Hacc]; simpl);
      repeat split; try done; try (intros [? ?]; done);
      try (intros [?|?]; done); try (by eexists).
Qed.

(** No growth for a text the transcript already contains. *)
Lemma contained_text_not_appended (now : Q) (message : string)
    (d : list (string * pyval)) (t : string) (c : ASRClient) :
  loads message = Ok (PDict d) ->
  dict_lookup "text" d = Some (PStr t) ->
  contains t (accumulated_text c) = true ->
  accumulated_text (handle_result loads now message c) = accumulated_text c.
Proof.
  intros Hmsg Htext Hcont. unfold handle_result. rewrite Hmsg.
  destruct (dict_in "error" d); [reflexivity|].
  unfold dict_in, dict_get. rewrite Htext. simpl truthy.
  destruct (String.eqb_spec t "") as [->|Hne]; [reflexivity|]. simpl negb.
  unfold merge_text, display_results. simpl truthy.
  destruct (String.eqb_spec t "") as [->|_]; [done|]. simpl.
  rewrite Hcont, andb_false_r. reflexivity.
Qed.

(** C9. A received message that decodes to a dict with an "error" key
    is only logged: the current text, the accumulated text and the
    screens stay as they were, whatever else the dict carries. *)
Theorem error_result_skipped (now : Q) (message : string)
    (d : list (string * pyval)) (c : ASRClient) :
  loads message = Ok (PDict d) ->
  dict_in "error" d = true ->
  let c' := handle_result loads now message c in
  c' = log_client (ServerError (dict_get d "error" PNone)) c /\
  current_text c' = current_text c /\
  accumulated_text c' = accumulated_text c /\
  screens c' = screens c.
Proof.
  intros Hmsg Herr c'. subst c'. unfold handle_result.
  rewrite Hmsg, Herr. repeat split.
Qed.
End Aggregator.

(** C6, as the code has it. [start_recording] on a client that is not
    recording empties the accumulated text and sets the session start
    time to the current time, whether or not the audio stream opens; it
    leaves the current text as it was. On a client that is already
    recording it changes nothing. *)
Theorem start_recording_resets (now : Q) (open_ok : bool) (c : ASRClient) :
  let c' := snd (start_recording now open_ok c) in
  (is_recording c = false ->
     accumulated_text c' = "" /\
     session_start_time c' = now /\
     current_text c' = current_text c) /\
  (is_recording c = true -> c' = c).
Proof.
  unfold start_recording. split; intros Hrec; rewrite Hrec.
  - by destruct open_ok.
  - reflexivity.
Qed.

(** C3, as the code has it. From the empty transcript, the results
    "hello", "hello world" accumulate to "hello hello world" (the second
    is not contained in "hello", so it is appended whole); the third
    result "world" is contained in the transcript and appends nothing.
    In general the accumulated text does not change on a text that it
    already contains. *)
Theorem aggregator_on_overlapping_results :
  let run := receive_results (table_loads transcript_table) in
  let first_two := [(1%Q, text_message "hello"); (2%Q, text_message "hello world")] in
  accumulated_text (run first_two new_client) = "hello hello world" /\
  accumulated_text (run (first_two ++ [(3%Q, text_message "world")]) new_client)
  = "hello hello world" /\
  forall (loads : string -> res pyval) (now : Q) (message : string)
         (d : list (string * pyval)) (t : string) (c : ASRClient),
    loads message = Ok (PDict d) ->
    dict_lookup "text" d = Some (PStr t) ->
    contains t (accumulated_text c) = true ->
    accumulated_text (handle_result loads now message c) = accumulated_text c.
Proof.
  split; [vm_compute; reflexivity|].
  split; [vm_compute; reflexivity|].
  intros loads now message d t c. apply contained_text_not_appended.
Qed.

(** * Concrete runs *)

Lemma threshold_dispatch_witness :
  exists s1 s2 result log,
    message_loop ok_env 7 (WsBinary <$> replicate 10 (silence 3200)) (session_with [])
    = (Ok tt, s1) /\
    events s1 = events (session_with []) /\
    clients s1 !! 7 = Some (mkClient (concat (replicate 10 (silence 3200))) (PInt 16000)) /\
    handle_message ok_env 7 (WsBinary (silence 3200)) s1 = (Ok tt, s2) /\
    events s2 = events (session_with [])
                ++ [EvDispatch 7 (concat (replicate 10 (silence 3200)) ++ silence 3200)
                      (PInt 16000)]
                ++ log ++ [EvSend 7 result] /\
    forallb is_error_event log = true /\
    clients s2 !! 7 = Some (mkClient [] (PInt 16000)).
Proof.
  apply (threshold_dispatch ok_env 7 (session_with []) (mkClient [] (PInt 16000))
           (replicate 10 (silence 3200)) (silence 3200)).
  - reflexivity.
  - reflexivity.
  - vm_compute. discriminate.
  - vm_compute. reflexivity.
  - vm_compute. reflexivity.
  - intros r. reflexivity.
Defined.

(** Ten frames of 3200 bytes fill the buffer to exactly 32000 bytes and
    nothing is dispatched: the test of the threshold is strict. *)
Lemma ten_frames_do_not_dispatch :
  let s := snd (message_loop ok_env 7 (WsBinary <$> replicate 10 (silence 3200))
                  (session_with [])) in
  events s = [] /\
  (fun c => Z.of_nat (length (audio_buffer c))) <$> (clients s !! 7) = Some 32000.
Proof. vm_compute. split; reflexivity. Qed.

Lemma malformed_control_ends_session_witness :
  (forall s0, handle_message ok_env 7 (WsText "{") s0
              = (Raise (mkExn JSONDecodeError "Expecting value: line 1 column 1 (char 0)"),
                 s0)) /\
  clients (process_audio ok_env 7
             ([WsBinary (silence 4)] ++ WsText "{" :: [WsText eof_message])
             empty_server) !! 7 = None.
Proof.
  pose proof (malformed_control_ends_session ok_env 7 empty_server
                [WsBinary (silence 4)] [WsText eof_message] "{"
                (mkExn JSONDecodeError "Expecting value: line 1 column 1 (char 0)")
                eq_refl eq_refl) as H.
  exact (conj (proj1 H) (proj1 (proj2 (proj2 H)))).
Defined.

(** A malformed control message ends the session: the loop raises, the
    entry is deleted, and the [eof] behind it is never answered, while
    the same messages without the malformed one are answered. *)
Lemma malformed_control_deletes_session :
  fst (message_loop ok_env 7 [WsText "{"; WsText eof_message] (session_with [x00; x00]))
  = Raise (mkExn JSONDecodeError "Expecting value: line 1 column 1 (char 0)") /\
  process_audio ok_env 7 [WsBinary [x00; x00]; WsText "{"; WsText eof_message]
    empty_server
  = mkServer ∅ [EvError 7 (LogSessionError
                  (mkExn JSONDecodeError "Expecting value: line 1 column 1 (char 0)"))] /\
  process_audio ok_env 7 [WsBinary [x00; x00]; WsText eof_message] empty_server
  = mkServer ∅ [EvDispatch 7 [x00; x00] (PInt 16000);
                EvSend 7 (PDict [("text", PStr "ok"); ("timestamps", PList [])])].
Proof. vm_compute. repeat split; reflexivity. Qed.

Lemma aggregator_on_overlapping_results_witness :
  table_loads transcript_table (text_message "world")
  = Ok (PDict [("text", PStr "world"); ("timestamps", PList [])]) /\
  contains "world" "hello hello world" = true /\
  accumulated_text
    (handle_result (table_loads transcript_table) 3%Q (text_message "world")
       (mkASRClient true true (PStr "hello world") "hello hello world" 1%Q [] []))
  = "hello hello world".
Proof.
  split; [reflexivity|]. split; [reflexivity|].
  apply (proj2 (proj2 aggregator_on_overlapping_results)
           (table_loads transcript_table) 3%Q (text_message "world")
           [("text", PStr "world"); ("timestamps", PList [])] "world"
           (mkASRClient true true (PStr "hello world") "hello hello world" 1%Q [] []));
    reflexivity.
Defined.

(** The transcript after "hello", "hello world", "world" is not
    "hello world". *)
Lemma overlapping_results_are_repeated :
  accumulated_text
    (receive_results (table_loads transcript_table)
       [(1%Q, text_message "hello"); (2%Q, text_message "hello world");
        (3%Q, text_message "world")] new_client)
  <> "hello world".
Proof. vm_compute. discriminate. Qed.

Lemma on_result_aggregates_witness :
  let c' := handle_result (table_loads transcript_table) 2%Q
              (text_message "hello world") paused_client in
  current_text c' = PStr "hello world" /\
  accumulated_text c' = "hello hello world".
Proof.
  pose proof (on_result_aggregates (table_loads transcript_table) 2%Q
                (text_message "hello world")
                [("text", PStr "hello world"); ("timestamps", PList [])]
                "hello world" paused_client eq_refl eq_refl eq_refl) as [_ H].
  destruct (H ltac:(discriminate)) as (Hcur & Happ & _).
  split; [exact Hcur|]. exact (Happ (conj eq_refl eq_refl)).
Defined.

Lemma recognizer_failure_contained_witness :
  recognize_audio failing_env 7 (session_with [x00; x80])
  = (Ok (PDict [("text", PStr ""); ("error", PStr "model failure");
                ("timestamps", PList [])]),
     mkServer (clients (session_with [x00; x80]))
              [EvDispatch 7 [x00; x80] (PInt 16000);
               EvError 7 (LogRecognizeError (mkExn RuntimeError "model failure"))]) /\
  exists s', recognize_and_reply failing_env 7 (session_with [x00; x80]) = (Ok tt, s') /\
             clients s' !! 7 = Some (mkClient [] (PInt 16000)).
Proof.
  pose proof (recognizer_failure_contained failing_env 7 (session_with [x00; x80])
                (mkClient [x00; x80] (PInt 16000)) [sample_to_float (-32768)]
                (mkExn RuntimeError "model failure")
                eq_refl ltac:(discriminate) eq_refl eq_refl) as [Hrec Hreply].
  split; [exact Hrec|].
  destruct (Hreply eq_refl) as [Hdone _].
  eexists. split; [exact Hdone|]. reflexivity.
Defined.

Lemma start_recording_resets_witness :
  accumulated_text (snd (start_recording 5%Q true paused_client)) = "" /\
  session_start_time (snd (start_recording 5%Q true paused_client)) = 5%Q /\
  current_text (snd (start_recording 5%Q true paused_client)) = PStr "hello".
Proof.
  exact (proj1 (start_recording_resets 5%Q true paused_client) eq_refl).
Defined.

(** Starting a recording leaves the current text in place. *)
Lemma start_recording_keeps_current_text :
  current_text (snd (start_recording 5%Q true paused_client)) = PStr "hello" /\
  current_text (snd (start_recording 5%Q true paused_client)) <> PStr "".
Proof. split; [reflexivity | discriminate]. Qed.

Lemma aligned_frames_keep_buffers_aligned_witness :
  buffers_aligned
    (snd (message_loop ok_env 7
            (take 2 [WsBinary [x01; x02]; WsText config_message; WsBinary [x03; x04]])
            (register 7 empty_server))).
Proof.
  refine (proj1 (aligned_frames_keep_buffers_aligned ok_env 7
                   [WsBinary [x01; x02]; WsText config_message; WsBinary [x03; x04]]
                   empty_server _ _) 2%nat).
  - intros j c Hc. simpl in Hc. rewrite lookup_empty in Hc. discriminate.
  - intros b Hb. simpl in Hb.
    destruct Hb as [Hb|[Hb|[Hb|[]]]]; inversion Hb; by exists 1%nat.
Defined.

(** A frame with an odd number of bytes leaves a buffer that is not a
    whole number of samples. *)
Lemma odd_frame_breaks_alignment :
  exists c,
    clients (snd (message_loop ok_env 7 [WsBinary [x01]] (register 7 empty_server))) !! 7
    = Some c /\
    ~ Nat.Even (length (audio_buffer c)).
Proof.
  exists (mkClient [x01] (PInt 16000)). split; [reflexivity|].
  intros [n Hn]. simpl in Hn. lia.
Qed.

Lemma error_result_skipped_witness :
  let c' := handle_result (table_loads transcript_table) 4%Q
              (error_message "hello" "boom") new_client in
  c' = log_client (ServerError (PStr "boom")) new_client /\
  current_text c' = PStr "" /\
  accumulated_text c' = "" /\
  screens c' = [].
Proof.
  exact (error_result_skipped (table_loads transcript_table) 4%Q
           (error_message "hello" "boom")
           [("text", PStr "hello"); ("error", PStr "boom"); ("timestamps", PList [])]
           new_client eq_refl eq_refl).
Defined.

Lemma dispatch_result_shape_witness :
  exists c d text ts,
    clients (session_with [x00; x80]) !! 7 = Some c /\
    PDict [("text", PStr "ok"); ("timestamps", PList [])] = PDict d /\
    dict_lookup "text" d = Some text /\
    dict_lookup "timestamps" d = Some (PList ts).
Proof.
  destruct (dispatch_result_shape ok_env 7 (session_with [x00; x80])
              (mkServer (clients (session_with [x00; x80]))
                        [EvDispatch 7 [x00; x80] (PInt 16000)])
              (PDict [("text", PStr "ok"); ("timestamps", PList [])]) eq_refl)
    as (c & d & text & ts & H1 & H2 & H3 & H4 & _).
  by exists c, d, text, ts.
Defined.

(** The "text" of a returned result is whatever the recognizer put
    there, and a recognizer that returns a dict without raising can
    still end in the error result. *)
Lemma dispatch_text_need_not_be_string :
  fst (recognize_audio
         (sample_env (constant_model (PDict [("text", PList [PStr "a"])])))
         7 (session_with [x00; x80]))
  = Ok (PDict [("text", PList [PStr "a"]); ("timestamps", PList [])]) /\
  fst (recognize_audio
         (sample_env (constant_model (PDict [("text", PInt 5)])))
         7 (session_with [x00; x80]))
  = Ok (result_error "object of type 'int' has no len()").
Proof. vm_compute. split; reflexivity. Qed.

(** * Further properties of the server *)

(** ** Timestamps *)

Lemma omap_one {A B : Type} (f : A -> option B) (x : A) :
  omap f [x] = match f x with Some y => [y] | None => [] end.
Proof. simpl. by destruct (f x). Qed.

Lemma add_segment_entry (client_id : Z) (segment : pyval) (ts : list pyval)
    (s : server) :
  exists s',
    add_segment client_id segment ts s
    = (Ok (ts ++ omap entry_of_segment [segment]), s') /\
    clients s' = clients s /\
    exists log, events s' = events s ++ log /\ forallb is_error_event log = true.
Proof.
  rewrite omap_one.
  assert (Hskip : exists s', (Ok ts, s) = (Ok (ts ++ []), s') /\
              clients s' = clients s /\
              exists log, events s' = events s ++ log /\
                          forallb is_error_event log = true).
  { exists s. rewrite app_nil_r.
    split; [done|]. split; [done|]. exists []. by rewrite app_nil_r. }
  assert (Hlog : forall e,
            exists s', (emit (EvError client_id (LogSegmentError e)) ≫= λ _, mret ts) s
                       = (Ok (ts ++ []), s') /\
              clients s' = clients s /\
              exists log, events s' = events s ++ log /\
                          forallb is_error_event log = true).
  { intros e. eexists. rewrite app_nil_r.
    split; [reflexivity|]. split; [done|]. by eexists [_]. }
  unfold add_segment, try_except.
  destruct segment as [| | | | |l|d]; try exact Hskip.
  unfold entry_of_segment.
  destruct (dict_in "text" d && dict_in "timestamp" d); [|exact Hskip].
  rewrite bind_eval. unfold lift_res at 1.
  destruct (py_index (dict_get d "timestamp" PNone) 0) as [start|e0].
  - rewrite bind_eval. unfold lift_res at 1.
    destruct (py_index (dict_get d "timestamp" PNone) 1) as [stop|e1].
    + exists s. split; [reflexivity|]. split; [done|]. exists []. by rewrite app_nil_r.
    + apply Hlog.
  - apply Hlog.
Qed.

(** The loop over the recognizer's segments is a filter: it returns the
    entries of the well-formed segments, in order, drops every other
    segment (at most logging it) and touches no session. *)
Lemma add_segments_filter (client_id : Z) (segments : list pyval) :
  forall (ts : list pyval) (s : server),
  exists s',
    add_segments client_id segments ts s
    = (Ok (ts ++ omap entry_of_segment segments), s') /\
    clients s' = clients s /\
    exists log, events s' = events s ++ log /\ forallb is_error_event log = true.
Proof.
  induction segments as [|seg rest IH]; intros ts s.
  - exists s. simpl. rewrite app_nil_r. split; [done|]. split; [done|].
    exists []. by rewrite app_nil_r.
  - destruct (add_segment_entry client_id seg ts s)
      as (s1 & H1 & Hc1 & l1 & He1 & Hl1).
    destruct (IH (ts ++ omap entry_of_segment [seg]) s1)
      as (s2 & H2 & Hc2 & l2 & He2 & Hl2).
    exists s2. split.
    + change (add_segments client_id (seg :: rest) ts s)
        with ((add_segment client_id seg ts
                 ≫= λ ts', add_segments client_id rest ts') s).
      rewrite (bind_ok _ _ _ _ _ H1), H2. f_equal. f_equal.
      rewrite <- app_assoc. f_equal.
      simpl. by destruct (entry_of_segment seg).
    + split; [congruence|]. exists (l1 ++ l2).
      rewrite He2, He1, app_assoc. split; [done|].
      by rewrite forallb_app, Hl1, Hl2.
Qed.

Section Recognition.
Variable E : env.

(** When the recognizer returns a dict whose text has a length, the
    result of the dispatch carries that text and the entries of the
    well-formed segments of its "timestamp" list, in order (none when
    the key is missing or not a list); a segment that is not a dict with
    "text" and "timestamp", or whose timestamp cannot be indexed at 0
    and 1, is dropped without failing the dispatch. *)
Theorem recognition_result (client_id : Z) (s : server) (c : client_data)
    (a : list spec_float) (d : list (string * pyval)) (n : Z) :
  clients s !! client_id = Some c ->
  audio_buffer c <> [] ->
  audio_to_float32 (audio_buffer c) = Some a ->
  generate E a (sample_rate c) = Ok (PDict d) ->
  py_len (dict_get d "text" (PStr "")) = Ok n ->
  exists s',
    recognize_audio E client_id s
    = (Ok (PDict [("text", dict_get d "text" (PStr ""));
                  ("timestamps", PList (timestamps_of d))]), s') /\
    clients s' = clients s.
Proof.
  intros Hc Hne Ha Hgen Hlen.
  rewrite (recognize_audio_model E _ _ _ a Hc Hne Ha).
  set (s0 := mkServer (clients s)
               (events s ++ [EvDispatch client_id (audio_buffer c) (sample_rate c)])).
  assert (Hts : exists s1,
             (if dict_in "timestamp" d then
                match dict_get d "timestamp" PNone with
                | PList timestamp_data => add_segments client_id timestamp_data []
                | _ => mret []
                end
              else mret []) s0 = (Ok (timestamps_of d), s1) /\
             clients s1 = clients s0).
  { unfold timestamps_of.
    destruct (dict_in "timestamp" d); [|by exists s0].
    destruct (dict_get d "timestamp" PNone); try by exists s0.
    destruct (add_segments_filter client_id l [] s0) as (s1 & H1 & Hc1 & _).
    by exists s1. }
  destruct Hts as (s1 & Hts & Hc1).
  exists s1. split; [|exact Hc1].
  unfold run_model, try_except. rewrite bind_eval. unfold lift_res at 1.
  rewrite Hgen. rewrite bind_eval, Hts. rewrite bind_eval. unfold lift_res.
  rewrite Hlen. reflexivity.
Qed.
End Recognition.

(** ** Control messages and the two ways a dispatch can fail *)

Lemma set_sample_rate_some (client_id : Z) (s : server) (c : client_data)
    (rate : pyval) :
  clients s !! client_id = Some c ->
  set_sample_rate client_id rate s
  = (Ok tt, mkServer (<[client_id := mkClient (audio_buffer c) rate]> (clients s))
                     (events s)).
Proof.
  intros H. unfold set_sample_rate.
  by rewrite (bind_ok _ _ _ _ _ (get_client_some _ _ _ H)).
Qed.

Section Control.
Variable E : env.

(** What the text branch does with a message that decodes to a dict. *)
Lemma handle_text_dict (client_id : Z) (s : server) (m : string)
    (d : list (string * pyval)) :
  json_loads E m = Ok (PDict d) ->
  handle_message E client_id (WsText m) s
  = if py_eq_str (dict_get d "type" PNone) "config" then
      set_sample_rate client_id (dict_get d "sample_rate" (PInt 16000)) s
    else if py_eq_str (dict_get d "type" PNone) "eof" then
      recognize_and_reply E client_id s
    else (Ok tt, s).
Proof.
  intros Hm. unfold handle_message. rewrite Hm.
  rewrite bind_eval. unfold lift_res at 1. rewrite bind_eval.
  unfold lift_res at 1, py_get.
  destruct (py_eq_str (dict_get d "type" PNone) "config").
  - rewrite bind_eval. reflexivity.
  - by destruct (py_eq_str (dict_get d "type" PNone) "eof").
Qed.

(** A dispatch on a buffer of whole samples, with the state it leaves. *)
Lemma recognize_audio_even (client_id : Z) (s : server) (c : client_data) :
  clients s !! client_id = Some c ->
  Nat.Even (length (audio_buffer c)) ->
  exists result log,
    recognize_audio E client_id s
    = (Ok result,
       mkServer (clients s)
                (events s ++ [EvDispatch client_id (audio_buffer c) (sample_rate c)]
                          ++ log)) /\
    forallb is_error_event log = true /\
    (audio_buffer c = [] -> result = result_empty /\ log = []) /\
    (audio_buffer c <> [] ->
       exists a, audio_to_float32 (audio_buffer c) = Some a /\
                 answer_for (generate E a (sample_rate c)) result).
Proof.
  intros Hc Heven.
  assert (Hcase : audio_buffer c = [] \/ audio_buffer c <> []).
  { destruct (audio_buffer c); [by left | by right]. }
  destruct Hcase as [Hbuf|Hne].
  - exists result_empty, []. rewrite (recognize_audio_empty E _ _ _ Hc Hbuf).
    rewrite Hbuf. repeat split; done.
  - destruct (audio_to_float32_even _ Heven) as [a Ha].
    rewrite (recognize_audio_model E _ _ _ a Hc Hne Ha).
    destruct (run_model_answer E client_id a (sample_rate c)
                (mkServer (clients s)
                   (events s ++ [EvDispatch client_id (audio_buffer c) (sample_rate c)])))
      as (r & s' & Hrun & Hcl & (log & Hev & Hlog) & Hans).
    exists r, log. split.
    + rewrite Hrun. f_equal. rewrite <- (server_eta s'). simpl in Hcl, Hev.
      by rewrite Hcl, Hev, <- app_assoc.
    + split; [exact Hlog|]. split; [done|]. intros _. by exists a.
Qed.

(** An [eof] control message flushes the session: the whole buffer
    (whole samples, possibly none) is dispatched once, one result is
    sent over a connection that accepts it, the buffer is emptied and
    the sample rate kept. On an empty buffer the result is the empty
    result and the recognizer is not consulted; otherwise the result is
    the recognizer's answer on the buffered samples at the session's
    sample rate. *)
Theorem eof_flushes_buffer (client_id : Z) (s : server) (c : client_data)
    (m : string) (d : list (string * pyval)) :
  json_loads E m = Ok (PDict d) ->
  dict_lookup "type" d = Some (PStr "eof") ->
  clients s !! client_id = Some c ->
  Nat.Even (length (audio_buffer c)) ->
  (forall r, send_ok E r = true) ->
  exists result log,
    handle_message E client_id (WsText m) s
    = (Ok tt,
       mkServer (<[client_id := mkClient [] (sample_rate c)]> (clients s))
                (events s ++ [EvDispatch client_id (audio_buffer c) (sample_rate c)]
                          ++ log ++ [EvSend client_id result])) /\
    forallb is_error_event log = true /\
    (audio_buffer c = [] -> result = result_empty /\ log = []) /\
    (audio_buffer c <> [] ->
       exists a, audio_to_float32 (audio_buffer c) = Some a /\
                 answer_for (generate E a (sample_rate c)) result).
Proof.
  intros Hm Hty Hc Heven Hsend.
  destruct (recognize_audio_even client_id s c Hc Heven)
    as (result & log & Hrec & Hlog & Hempty & Hfull).
  exists result, log. split; [|done].
  rewrite (handle_eof E client_id s m d Hm Hty).
  rewrite (recognize_and_reply_ok E _ _ _ _ _ Hc Hrec eq_refl (Hsend result)).
  simpl. by rewrite <- !app_assoc.
Qed.

(** A [config] control message stores whatever value its "sample_rate"
    holds (16000 when the key is missing) as the session's sample rate;
    it leaves the buffered audio, the other sessions and the trace as
    they were. *)
Theorem config_sets_sample_rate (client_id : Z) (s : server) (c : client_data)
    (m : string) (d : list (string * pyval)) :
  json_loads E m = Ok (PDict d) ->
  dict_lookup "type" d = Some (PStr "config") ->
  clients s !! client_id = Some c ->
  handle_message E client_id (WsText m) s
  = (Ok tt,
     mkServer (<[client_id := mkClient (audio_buffer c)
                                        (dict_get d "sample_rate" (PInt 16000))]>
                 (clients s))
              (events s)).
Proof.
  intros Hm Hty Hc. rewrite (handle_text_dict client_id s m d Hm).
  unfold dict_get at 1. rewrite Hty. simpl py_eq_str.
  by apply set_sample_rate_some.
Qed.

(** A control message that is a dict of any other type (or of none) is
    skipped: taking it out of the messages of a session changes nothing
    in the run. *)
Theorem unknown_control_is_skipped (client_id : Z) (pre post : list ws_message)
    (m : string) (d : list (string * pyval)) (s : server) :
  json_loads E m = Ok (PDict d) ->
  py_eq_str (dict_get d "type" PNone) "config" = false ->
  py_eq_str (dict_get d "type" PNone) "eof" = false ->
  message_loop E client_id (pre ++ WsText m :: post) s
  = message_loop E client_id (pre ++ post) s /\
  process_audio E client_id (pre ++ WsText m :: post) s
  = process_audio E client_id (pre ++ post) s.
Proof.
  intros Hm Hconfig Heof.
  assert (Hskip : forall s0,
             message_loop E client_id (pre ++ WsText m :: post) s0
             = message_loop E client_id (pre ++ post) s0).
  { intros s0. rewrite !message_loop_app.
    destruct (message_loop E client_id pre s0) as [[[]|e] s1]; [|reflexivity].
    rewrite message_loop_cons, (handle_text_dict client_id s1 m d Hm).
    by rewrite Hconfig, Heof. }
  split; [apply Hskip|]. unfold process_audio. by rewrite Hskip.
Qed.

(** A control message that is valid JSON but not an object (a number, a
    list, a string, ...) raises [AttributeError] at [data.get]: like a
    malformed one it ends the session, and nothing behind it is
    processed. *)
Theorem non_object_control_ends_session (client_id : Z) (s : server)
    (pre post : list ws_message) (m : string) (v : pyval) :
  json_loads E m = Ok v ->
  is_dict v = false ->
  let e := mkExn AttributeError
             ("'" +:+ type_name v +:+ "' object has no attribute 'get'") in
  (forall s0, handle_message E client_id (WsText m) s0 = (Raise e, s0)) /\
  process_audio E client_id (pre ++ WsText m :: post) s
  = process_audio E client_id (pre ++ [WsText m]) s /\
  (forall s1,
      message_loop E client_id pre (register client_id s) = (Ok tt, s1) ->
      process_audio E client_id (pre ++ WsText m :: post) s
      = mkServer (delete client_id (clients s1))
                 (events s1 ++ [EvError client_id (LogSessionError e)])).
Proof.
  intros Hm Hv e.
  assert (Hraise : forall s0, handle_message E client_id (WsText m) s0 = (Raise e, s0)).
  { intros s0. unfold handle_message. rewrite Hm.
    rewrite bind_eval. unfold lift_res at 1. rewrite bind_eval.
    by destruct v. }
  assert (Hstop : forall tail s0,
             message_loop E client_id (WsText m :: tail) s0 = (Raise e, s0)).
  { intros tail s0. by rewrite message_loop_cons, Hraise. }
  split; [exact Hraise|]. split.
  - unfold process_audio. rewrite !message_loop_app.
    destruct (message_loop E client_id pre _) as [[[]|e0] s1]; [|reflexivity].
    by rewrite !Hstop.
  - intros s1 Hpre. unfold process_audio. fold (register client_id s).
    by rewrite message_loop_app, Hpre, Hstop.
Qed.

(** A dispatch on a buffer with an odd number of bytes raises
    [ValueError] before the recognizer is called: nothing is sent and
    the buffer is not cleared. *)
Theorem odd_buffer_dispatch_fails (client_id : Z) (s : server) (c : client_data) :
  clients s !! client_id = Some c ->
  Nat.Odd (length (audio_buffer c)) ->
  recognize_and_reply E client_id s
  = (Raise (mkExn ValueError "buffer size must be a multiple of element size"),
     mkServer (clients s)
              (events s ++ [EvDispatch client_id (audio_buffer c) (sample_rate c)])).
Proof.
  intros Hc [n Hn].
  assert (Hodd : audio_to_float32 (audio_buffer c) = None).
  { unfold audio_to_float32. by rewrite (frombuffer_int16_odd n _ Hn). }
  unfold recognize_and_reply.
  by rewrite (bind_raise _ _ _ _ _ (recognize_audio_odd E _ _ _ Hc Hodd)).
Qed.

(** When the connection refuses the reply to an [eof], the dispatch
    raises [ConnectionClosed] after the recognition: the result is lost,
    the buffer is not cleared, and the session ends without an error
    record (the handler logs a closed connection at info level only)
    while its entry is deleted. *)
Theorem unsent_reply_ends_session (client_id : Z) (s0 s s1 : server)
    (pre post : list ws_message) (m : string) (d : list (string * pyval))
    (result : pyval) :
  json_loads E m = Ok (PDict d) ->
  dict_lookup "type" d = Some (PStr "eof") ->
  message_loop E client_id pre (register client_id s0) = (Ok tt, s) ->
  recognize_audio E client_id s = (Ok result, s1) ->
  send_ok E result = false ->
  handle_message E client_id (WsText m) s
  = (Raise (mkExn ConnectionClosed "connection closed"), s1) /\
  clients s1 = clients s /\
  process_audio E client_id (pre ++ WsText m :: post) s0
  = mkServer (delete client_id (clients s)) (events s1).
Proof.
  intros Hm Hty Hloop Hrec Hsend.
  assert (Hrr : handle_message E client_id (WsText m) s
                = (Raise (mkExn ConnectionClosed "connection closed"), s1)).
  { rewrite (handle_eof E client_id s m d Hm Hty).
    unfold recognize_and_reply. rewrite (bind_ok _ _ _ _ _ Hrec).
    rewrite bind_eval. unfold ws_send. by rewrite Hsend. }
  pose proof (recognize_audio_clients E _ _ _ _ Hrec) as Hcl.
  split; [exact Hrr|]. split; [exact Hcl|].
  unfold process_audio. fold (register client_id s0).
  rewrite message_loop_app, Hloop, message_loop_cons, Hrr. simpl.
  by rewrite Hcl.
Qed.
End Control.

(** ** The registry of sessions *)

Lemma only_quiet {A : Type} (P : server -> Prop) (m : M A) :
  clients_only P -> quiet m -> preserves P m.
Proof.
  intros HP Hq s r s' Hs H. destruct (Hq _ _ _ H) as [Hcl _].
  exact (HP _ _ Hcl Hs).
Qed.

Lemma only_emit (P : server -> Prop) (ev : event) :
  clients_only P -> preserves P (emit ev).
Proof. intros HP s r s' Hs H. inversion H; subst. by apply (HP s). Qed.

Section Registry.
Variable E : env.

Lemma only_recognize_and_reply (P : server -> Prop) (client_id : Z) :
  clients_only P ->
  (forall c, preserves P (put_client client_id c)) ->
  preserves P (recognize_and_reply E client_id).
Proof.
  intros HP Hput. unfold recognize_and_reply.
  apply preserves_bind.
  - intros s r s' Hs H. exact (HP _ _ (recognize_audio_clients E _ _ _ _ H) Hs).
  - intros result. apply preserves_bind.
    + unfold ws_send. destruct (send_ok E result).
      * by apply only_emit.
      * apply only_quiet; [done | apply quiet_raise].
    + intros _. unfold set_audio_buffer.
      apply preserves_bind; [apply only_quiet; [done | apply quiet_get_client]|].
      intros c. apply Hput.
Qed.

Lemma only_handle_message (P : server -> Prop) (client_id : Z)
    (message : ws_message) :
  clients_only P ->
  (forall c, preserves P (put_client client_id c)) ->
  preserves P (handle_message E client_id message).
Proof.
  intros HP Hput. destruct message as [m|b]; simpl.
  - apply preserves_bind; [apply only_quiet; [done | apply quiet_lift_res]|].
    intros data.
    apply preserves_bind; [apply only_quiet; [done | apply quiet_lift_res]|].
    intros ty. destruct (py_eq_str ty "config").
    + apply preserves_bind; [apply only_quiet; [done | apply quiet_lift_res]|].
      intros rate. unfold set_sample_rate.
      apply preserves_bind; [apply only_quiet; [done | apply quiet_get_client]|].
      intros c. apply Hput.
    + destruct (py_eq_str ty "eof").
      * by apply only_recognize_and_reply.
      * apply only_quiet; [done | apply quiet_ret].
  - apply preserves_bind; [apply only_quiet; [done | apply quiet_get_client]|].
    intros c. apply preserves_bind.
    + unfold set_audio_buffer.
      apply preserves_bind; [apply only_quiet; [done | apply quiet_get_client]|].
      intros c0. apply Hput.
    + intros _.
      apply preserves_bind; [apply only_quiet; [done | apply quiet_get_client]|].
      intros c'. destruct (32000 <? Z.of_nat (length (audio_buffer c'))).
      * by apply only_recognize_and_reply.
      * apply only_quiet; [done | apply quiet_ret].
Qed.

Lemma only_message_loop (P : server -> Prop) (client_id : Z)
    (messages : list ws_message) :
  clients_only P ->
  (forall c, preserves P (put_client client_id c)) ->
  preserves P (message_loop E client_id messages).
Proof.
  intros HP Hput. induction messages as [|m rest IH]; simpl.
  - apply only_quiet; [done | apply quiet_ret].
  - apply preserves_bind; [by apply only_handle_message | intros _; exact IH].
Qed.

(** A session only ever touches its own entry of [self.clients], and
    when it is over the registry is what it was before the connection,
    without this connection's id: the entry is deleted however the
    session ends, and no other session is added, removed or changed. *)
Theorem session_leaves_registry (client_id : Z) (messages : list ws_message)
    (s : server) :
  (forall j, j <> client_id ->
     clients (snd (message_loop E client_id messages s)) !! j = clients s !! j) /\
  clients (process_audio E client_id messages s) = delete client_id (clients s).
Proof.
  assert (Hiso : forall s0 j, j <> client_id ->
            clients (snd (message_loop E client_id messages s0)) !! j
            = clients s0 !! j).
  { intros s0 j Hj.
    destruct (message_loop E client_id messages s0) as [r s'] eqn:Hrun. simpl.
    refine (only_message_loop (fun x => clients x !! j = clients s0 !! j)
              client_id messages _ _ s0 r s' eq_refl Hrun).
    - intros x x' Hcl Hx. by rewrite Hcl.
    - intros c x r0 x' Hx Hput. inversion Hput; subst. simpl.
      by rewrite lookup_insert_ne. }
  split; [apply Hiso|].
  apply map_eq. intros j. unfold process_audio.
  pose proof (Hiso (mkServer (<[client_id := mkClient [] (PInt 16000)]> (clients s))
                             (events s)) j) as Hj.
  destruct (message_loop E client_id messages _) as [r s2]. simpl in Hj.
  assert (Hdel : forall ev, clients (mkServer (delete client_id (clients s2)) ev) !! j
                            = delete client_id (clients s) !! j).
  { intros ev. simpl. destruct (decide (j = client_id)) as [->|Hne].
    - by rewrite !lookup_delete_eq.
    - rewrite !lookup_delete_ne by done. rewrite (Hj Hne). simpl.
      by rewrite lookup_insert_ne. }
  destruct r as [[]|e]; [apply Hdel|]. destruct (exn_kind e); apply Hdel.
Qed.

(** A dispatch that returns has found the session and emptied its
    buffer. *)
Lemma recognize_and_reply_done (client_id : Z) (s s' : server) :
  recognize_and_reply E client_id s = (Ok tt, s') ->
  exists c, clients s !! client_id = Some c /\
            clients s' = <[client_id := mkClient [] (sample_rate c)]> (clients s).
Proof.
  unfold recognize_and_reply. rewrite bind_eval.
  destruct (recognize_audio E client_id s) as [[r|e] s1] eqn:Hrec; [|discriminate].
  pose proof (recognize_audio_clients E _ _ _ _ Hrec) as Hcl.
  rewrite bind_eval. unfold ws_send.
  destruct (send_ok E r); [|discriminate]. unfold emit at 1.
  unfold set_audio_buffer. rewrite bind_eval. unfold get_client. simpl.
  rewrite Hcl. destruct (clients s !! client_id) as [c|]; [|discriminate].
  intros H. inversion H; subst. by exists c.
Qed.

Lemma handle_message_bounded (client_id : Z) (message : ws_message)
    (s s' : server) :
  session_bounded client_id s ->
  handle_message E client_id message s = (Ok tt, s') ->
  session_bounded client_id s'.
Proof.
  intros Hb H.
  assert (Hflush : forall s0, recognize_and_reply E client_id s0 = (Ok tt, s') ->
                              session_bounded client_id s').
  { intros s0 Hrr. destruct (recognize_and_reply_done _ _ _ Hrr) as (c & _ & Hcl).
    intros c' Hc'. rewrite Hcl, lookup_insert_eq in Hc'.
    inversion Hc'; subst. simpl. lia. }
  destruct message as [m|b].
  - destruct (json_loads E m) as [v|e] eqn:Hm.
    2: { rewrite (handle_malformed E client_id m e s Hm) in H. discriminate. }
    destruct v as [| | | | | |d];
      try (unfold handle_message in H; rewrite Hm in H; discriminate H).
    rewrite (handle_text_dict E client_id s m d Hm) in H.
    destruct (py_eq_str (dict_get d "type" PNone) "config").
    + destruct (clients s !! client_id) as [c|] eqn:Hc.
      * rewrite (set_sample_rate_some _ _ _ _ Hc) in H. inversion H; subst.
        intros c' Hc'. simpl in Hc'. rewrite lookup_insert_eq in Hc'.
        inversion Hc'; subst. simpl. exact (Hb _ Hc).
      * unfold set_sample_rate in H.
        rewrite (bind_raise _ _ _ _ _ (get_client_none _ _ Hc)) in H. discriminate.
    + destruct (py_eq_str (dict_get d "type" PNone) "eof").
      * exact (Hflush _ H).
      * by inversion H; subst.
  - destruct (clients s !! client_id) as [c|] eqn:Hc.
    2: { unfold handle_message in H.
         rewrite (bind_raise _ _ _ _ _ (get_client_none _ _ Hc)) in H. discriminate. }
    destruct (Z.le_gt_cases (Z.of_nat (length (audio_buffer c ++ b))) 32000) as [Hle|Hgt].
    + rewrite (handle_binary_below E _ _ _ _ Hc Hle) in H. inversion H; subst.
      intros c' Hc'. simpl in Hc'. rewrite lookup_insert_eq in Hc'.
      by inversion Hc'; subst.
    + rewrite (handle_binary_above E _ _ _ _ Hc Hgt) in H. exact (Hflush _ H).
Qed.

(** While a session runs its entry stays in the registry, and between
    two messages its buffer never holds more than 32000 bytes: a buffer
    above the threshold exists only inside the step that dispatches
    it. *)
Theorem buffer_within_threshold (client_id : Z) (messages : list ws_message)
    (s s' : server) (r : res unit) :
  message_loop E client_id messages (register client_id s) = (r, s') ->
  exists c, clients s' !! client_id = Some c /\
            (r = Ok tt -> Z.of_nat (length (audio_buffer c)) <= 32000).
Proof.
  intros Hrun.
  assert (Halive : is_Some (clients s' !! client_id)).
  { refine (only_message_loop (fun x => is_Some (clients x !! client_id))
              client_id messages _ _ _ r s' _ Hrun).
    - intros x x' Hcl Hx. by rewrite Hcl.
    - intros c x r0 x' Hx Hput. inversion Hput; subst. simpl.
      rewrite lookup_insert_eq. by eexists.
    - simpl. rewrite lookup_insert_eq. by eexists. }
  destruct Halive as [c Hc]. exists c. split; [exact Hc|].
  intros ->.
  assert (Hloop : forall msgs s0 s1,
             session_bounded client_id s0 ->
             message_loop E client_id msgs s0 = (Ok tt, s1) ->
             session_bounded client_id s1).
  { induction msgs as [|m rest IH]; intros s0 s1 Hb Hl.
    - by inversion Hl; subst.
    - rewrite message_loop_cons in Hl.
      destruct (handle_message E client_id m s0) as [[[]|e] s2] eqn:Hm; [|discriminate].
      exact (IH _ _ (handle_message_bounded _ _ _ _ Hb Hm) Hl). }
  refine (Hloop messages _ _ _ Hrun c Hc).
  intros c0 Hc0. simpl in Hc0. rewrite lookup_insert_eq in Hc0.
  inversion Hc0; subst. simpl. lia.
Qed.
End Registry.

(** ** Results sent against dispatches *)

Lemma count_events_app (p : event -> bool) (l1 l2 : list event) :
  count_events p (l1 ++ l2) = (count_events p l1 + count_events p l2)%nat.
Proof. unfold count_events. by rewrite filter_app, length_app. Qed.

Lemma count_events_errors (log : list event) :
  forallb is_error_event log = true ->
  count_events is_send log = 0%nat /\ count_events is_dispatch log = 0%nat.
Proof.
  induction log as [|ev log IH]; [done|]. simpl. intros H.
  apply andb_prop in H as [Hev Hlog]. destruct (IH Hlog) as [IH1 IH2].
  destruct ev; try discriminate. unfold count_events in *.
  rewrite !filter_cons. simpl.
  destruct (decide (false = true)) as [?|_]; [discriminate|]. done.
Qed.

Lemma silent_bind {A B : Type} (m : M A) (k : A -> M B) :
  silent m -> (forall a, silent (k a)) -> silent (m ≫= k).
Proof.
  intros Hm Hk s r s' H. rewrite bind_eval in H.
  destruct (m s) as [[a|e] s1] eqn:Hms.
  - rewrite (Hk a _ _ _ H). exact (Hm _ _ _ Hms).
  - inversion H; subst. exact (Hm _ _ _ Hms).
Qed.

Lemma silent_get_client (client_id : Z) : silent (get_client client_id).
Proof.
  intros s r s' H. unfold get_client in H.
  by destruct (clients s !! client_id); inversion H.
Qed.

Lemma silent_put_client (client_id : Z) (c : client_data) :
  silent (put_client client_id c).
Proof. intros s r s' H. by inversion H. Qed.

Lemma silent_lift_res {A : Type} (x : res A) : silent (lift_res x).
Proof. intros s r s' H. by inversion H. Qed.

Lemma silent_ret {A : Type} (a : A) : silent (mret a : M A).
Proof. intros s r s' H. by inversion H. Qed.

Lemma silent_set_audio_buffer (client_id : Z) (buf : list byte) :
  silent (set_audio_buffer client_id buf).
Proof.
  apply silent_bind; [apply silent_get_client | intros c; apply silent_put_client].
Qed.

Lemma silent_set_sample_rate (client_id : Z) (rate : pyval) :
  silent (set_sample_rate client_id rate).
Proof.
  apply silent_bind; [apply silent_get_client | intros c; apply silent_put_client].
Qed.

Lemma traced_silent {A : Type} (m : M A) : silent m -> traced m.
Proof.
  intros Hm s r s' H. exists []. rewrite app_nil_r.
  split; [exact (Hm _ _ _ H)|].
  destruct r; unfold step_balance, count_events; simpl; split; lia.
Qed.

Lemma traced_bind_silent {A B : Type} (m : M A) (k : A -> M B) :
  silent m -> (forall a, traced (k a)) -> traced (m ≫= k).
Proof.
  intros Hm Hk s r s' H. rewrite bind_eval in H.
  destruct (m s) as [[a|e] s1] eqn:Hms.
  - destruct (Hk a _ _ _ H) as (l & Hl & Hbal). exists l.
    rewrite <- (Hm _ _ _ Hms). by split.
  - inversion H; subst. exists []. rewrite app_nil_r.
    split; [exact (Hm _ _ _ Hms)|].
    unfold step_balance, count_events; simpl; split; lia.
Qed.

Section Replies.
Variable E : env.

(** The trace of one call of [recognize_audio], however it ends. *)
Lemma recognize_audio_events (client_id : Z) (s s1 : server) (r : res pyval) :
  recognize_audio E client_id s = (r, s1) ->
  exists l, events s1 = events s ++ l /\
            count_events is_send l = 0%nat /\
            (count_events is_dispatch l <= 1)%nat /\
            (forall v, r = Ok v ->
               count_events is_dispatch l = 1%nat /\
               is_Some (clients s !! client_id)).
Proof.
  intros H.
  destruct (clients s !! client_id) as [c|] eqn:Hc.
  2: { unfold recognize_audio in H.
       rewrite (bind_raise _ _ _ _ _ (get_client_none _ _ Hc)) in H.
       inversion H; subst. exists []. rewrite app_nil_r.
       split; [done|]. split; [done|]. split; [unfold count_events; simpl; lia|].
       intros v Hv. discriminate Hv. }
  assert (Hone : forall log, forallb is_error_event log = true ->
            count_events is_send
              ([EvDispatch client_id (audio_buffer c) (sample_rate c)] ++ log) = 0%nat /\
            count_events is_dispatch
              ([EvDispatch client_id (audio_buffer c) (sample_rate c)] ++ log) = 1%nat).
  { intros log Hlog. rewrite !count_events_app.
    destruct (count_events_errors log Hlog) as [-> ->]. by split. }
  assert (Hgoal : forall log s2,
            forallb is_error_event log = true ->
            events s2 = events s
                        ++ [EvDispatch client_id (audio_buffer c) (sample_rate c)] ++ log ->
            exists l, events s2 = events s ++ l /\
              count_events is_send l = 0%nat /\
              (count_events is_dispatch l <= 1)%nat /\
              (forall v, r = Ok v ->
                 count_events is_dispatch l = 1%nat /\ is_Some (Some c))).
  { intros log s2 Hlog Hev. destruct (Hone log Hlog) as [Hs Hd].
    exists ([EvDispatch client_id (audio_buffer c) (sample_rate c)] ++ log).
    split; [exact Hev|]. split; [exact Hs|]. split; [lia|].
    intros v _. split; [exact Hd | by eexists]. }
  assert (Hcase : audio_buffer c = [] \/ audio_buffer c <> []).
  { destruct (audio_buffer c); [by left | by right]. }
  destruct Hcase as [Hbuf|Hne].
  - rewrite (recognize_audio_empty E _ _ _ Hc Hbuf) in H. inversion H; subst.
    apply (Hgoal []); [done|]. simpl. by rewrite Hbuf.
  - destruct (audio_to_float32 (audio_buffer c)) as [a|] eqn:Ha.
    + rewrite (recognize_audio_model E _ _ _ a Hc Hne Ha) in H.
      destruct (run_model_quiet E client_id a (sample_rate c) _ _ _ H)
        as [_ (log & Hev & Hlog)].
      apply (Hgoal log); [done|]. simpl in Hev. by rewrite Hev, <- app_assoc.
    + rewrite (recognize_audio_odd E _ _ _ Hc Ha) in H. inversion H; subst.
      apply (Hgoal []); [done|]. done.
Qed.

Lemma traced_recognize_and_reply (client_id : Z) :
  traced (recognize_and_reply E client_id).
Proof.
  intros s r s' H. unfold recognize_and_reply in H. rewrite bind_eval in H.
  destruct (recognize_audio E client_id s) as [[v|e] s1] eqn:Hrec.
  - destruct (recognize_audio_events _ _ _ _ Hrec) as (l & Hl & Hs & Hd & Hok).
    destruct (Hok v eq_refl) as [Hd1 [c Hc]].
    pose proof (recognize_audio_clients E _ _ _ _ Hrec) as Hcl.
    rewrite bind_eval in H. unfold ws_send in H.
    destruct (send_ok E v).
    + unfold emit at 1 in H.
      erewrite set_audio_buffer_some in H; [|simpl; rewrite Hcl; exact Hc].
      inversion H; subst. simpl. exists (l ++ [EvSend client_id v]).
      rewrite Hl, <- app_assoc. split; [done|]. simpl.
      rewrite !count_events_app, Hs, Hd1. by split.
    + inversion H; subst. exists l. split; [done|]. simpl. by split.
  - inversion H; subst.
    destruct (recognize_audio_events _ _ _ _ Hrec) as (l & Hl & Hs & Hd & _).
    exists l. split; [done|]. simpl. by split.
Qed.

Lemma traced_handle_message (client_id : Z) (message : ws_message) :
  traced (handle_message E client_id message).
Proof.
  destruct message as [m|b]; simpl.
  - apply traced_bind_silent; [apply silent_lift_res | intros data].
    apply traced_bind_silent; [apply silent_lift_res | intros ty].
    destruct (py_eq_str ty "config").
    + apply traced_silent. apply silent_bind; [apply silent_lift_res|].
      intros rate. apply silent_set_sample_rate.
    + destruct (py_eq_str ty "eof").
      * apply traced_recognize_and_reply.
      * apply traced_silent, silent_ret.
  - apply traced_bind_silent; [apply silent_get_client | intros c].
    apply traced_bind_silent; [apply silent_set_audio_buffer | intros _].
    apply traced_bind_silent; [apply silent_get_client | intros c'].
    destruct (32000 <? Z.of_nat (length (audio_buffer c'))).
    + apply traced_recognize_and_reply.
    + apply traced_silent, silent_ret.
Qed.

(** Over any run of the message loop every dispatch is answered by
    exactly one sent result, in step: each message adds at most one
    dispatch, the results sent never outnumber the dispatches, and the
    only dispatch that can stay unanswered is the one on which the loop
    ended with an exception. *)
Theorem replies_match_dispatches (client_id : Z) (messages : list ws_message) :
  forall (s s' : server) (r : res unit),
    message_loop E client_id messages s = (r, s') ->
    exists l, events s' = events s ++ l /\
      (count_events is_send l <= count_events is_dispatch l)%nat /\
      (count_events is_dispatch l <= count_events is_send l + 1)%nat /\
      (count_events is_dispatch l <= length messages)%nat /\
      (r = Ok tt -> count_events is_send l = count_events is_dispatch l).
Proof.
  induction messages as [|m rest IH]; intros s s' r Hrun.
  - inversion Hrun; subst. exists []. rewrite app_nil_r.
    unfold count_events. simpl. repeat split; lia.
  - rewrite message_loop_cons in Hrun.
    destruct (handle_message E client_id m s) as [[[]|e] s1] eqn:Hm.
    + destruct (traced_handle_message _ _ _ _ _ Hm) as (l1 & Hl1 & Hs1 & Hd1).
      destruct (IH _ _ _ Hrun) as (l2 & Hl2 & Hle & Hge & Hlen & Hok).
      exists (l1 ++ l2). rewrite Hl2, Hl1, <- app_assoc.
      split; [done|]. rewrite !count_events_app. simpl.
      repeat split; try lia. intros Hr. specialize (Hok Hr). lia.
    + inversion Hrun; subst.
      destruct (traced_handle_message _ _ _ _ _ Hm) as (l1 & Hl1 & Hs1 & Hd1).
      exists l1. split; [done|]. simpl.
      repeat split; try lia. discriminate.
Qed.
End Replies.

(** * Further properties of the client *)

(** ** Substrings and prefixes *)

Lemma contains_refl (t : string) : contains t t = true.
Proof. destruct t as [|a t]; [reflexivity|]. by rewrite contains_step, prefix_refl. Qed.

Lemma contains_append (t s1 s2 : string) :
  contains t s2 = true -> contains t (s1 +:+ s2) = true.
Proof.
  intros H. induction s1 as [|a s1 IH]; [exact H|].
  change (String a s1 +:+ s2) with (String a (s1 +:+ s2)).
  rewrite contains_step. by destruct (String.prefix t (String a (s1 +:+ s2))).
Qed.

Lemma contains_nonempty (t acc : string) :
  t <> "" -> contains t acc = true -> acc <> "".
Proof. intros Ht H ->. by destruct t. Qed.

Lemma prefix_empty (s : string) : String.prefix "" s = true.
Proof. by destruct s. Qed.

Lemma prefix_append (s x : string) : String.prefix s (s +:+ x) = true.
Proof.
  induction s as [|a s IH]; [apply prefix_empty|]. simpl.
  destruct (Ascii.ascii_dec a a); [exact IH | congruence].
Qed.

Lemma prefix_trans (s1 : string) :
  forall s2 s3, String.prefix s1 s2 = true -> String.prefix s2 s3 = true ->
                String.prefix s1 s3 = true.
Proof.
  induction s1 as [|a s1 IH]; intros s2 s3 H12 H23; [apply prefix_empty|].
  destruct s2 as [|b s2]; [discriminate|]. destruct s3 as [|c s3]; [discriminate|].
  simpl in *. destruct (Ascii.ascii_dec a b) as [->|]; [|discriminate].
  destruct (Ascii.ascii_dec b c) as [->|]; [|discriminate].
  by eapply IH.
Qed.

Lemma merged_contains (acc t : string) : contains t (merged acc t) = true.
Proof.
  unfold merged. destruct (contains t acc) eqn:Hc; [exact Hc|].
  destruct (String.eqb acc ""); [apply contains_refl|].
  apply contains_append, contains_append, contains_refl.
Qed.

Lemma merged_prefix (acc t : string) : String.prefix acc (merged acc t) = true.
Proof.
  unfold merged. destruct (contains t acc); [apply prefix_refl|].
  destruct (String.eqb_spec acc "") as [->|_]; [apply prefix_empty | apply prefix_append].
Qed.

Lemma merged_again (acc t : string) : merged (merged acc t) t = merged acc t.
Proof. unfold merged at 1. by rewrite merged_contains. Qed.

(** The statements under [if text:] on a non-empty string: the suffix
    test of the condition never decides. *)
Lemma merge_text_string (t : string) (c : ASRClient) :
  merge_text (PStr t) c
  = (Ok tt, set_accumulated_text (merged (accumulated_text c) t)
              (set_current_text (PStr t) c)).
Proof.
  unfold merge_text, merged. simpl accumulated_text.
  destruct (contains t (accumulated_text c)) eqn:Hc.
  - rewrite andb_false_r. reflexivity.
  - destruct (endswith (accumulated_text c) t) eqn:He.
    + by rewrite (endswith_contains _ _ He) in Hc.
    + simpl. by destruct (String.eqb (accumulated_text c) "").
Qed.

Section Transcript.
Variable loads : string -> res pyval.

(** What a received message does to the two texts and to the screens,
    by the text it carries. *)
Lemma handle_result_effect (now : Q) (message : string) (c : ASRClient) :
  let c' := handle_result loads now message c in
  match carried_text (loads message) with
  | None =>
      current_text c' = current_text c /\
      accumulated_text c' = accumulated_text c /\
      screens c' = screens c
  | Some (PStr t) =>
      t <> "" /\
      current_text c' = PStr t /\
      accumulated_text c' = merged (accumulated_text c) t /\
      screens c' = screens c ++
        [mkScreen (PStr t) (Some (merged (accumulated_text c) t))
           (if Qle_bool (session_start_time c) 0 then None
            else Some (now - session_start_time c)%Q)]
  | Some v =>
      current_text c' = v /\
      accumulated_text c' = accumulated_text c /\
      screens c' = screens c /\
      client_log c' = client_log c ++
        [HandlingError
           (mkExn TypeError
              ("endswith first arg must be str or a tuple of str, not "
               +:+ type_name v))]
  end.
Proof.
  unfold handle_result, carried_text.
  destruct (loads message) as [result|e].
  2: { by destruct (exn_kind e). }
  destruct result as [| | | | | |d]; try done.
  destruct (dict_in "error" d); [done|].
  destruct (dict_in "text" d); [|done].
  destruct (truthy (dict_get d "text" PNone)) eqn:Htruthy;
    [|unfold display_results; by rewrite Htruthy].
  destruct (dict_get d "text" PNone) as [|b|z|f|t|l|d'] eqn:Htext;
    try (simpl; done).
  rewrite merge_text_string. unfold display_results. rewrite Htruthy. simpl.
  simpl in Htruthy. destruct (String.eqb_spec t "") as [->|Ht]; [discriminate|].
  assert (Hne : merged (accumulated_text c) t <> "")
    by exact (contains_nonempty t _ Ht (merged_contains _ t)).
  destruct (String.eqb_spec (merged (accumulated_text c) t) ""); done.
Qed.

(** Within a recording session the transcript only grows: whatever the
    connection delivers, the accumulated text before is a prefix of the
    accumulated text after. *)
Theorem transcript_only_grows (received : list (Q * string)) :
  forall c : ASRClient,
    String.prefix (accumulated_text c)
                  (accumulated_text (receive_results loads received c)) = true.
Proof.
  induction received as [|[now message] rest IH]; intros c; simpl.
  - apply prefix_refl.
  - apply prefix_trans with (accumulated_text (handle_result loads now message c));
      [|apply IH].
    pose proof (handle_result_effect now message c) as H. simpl in H.
    destruct (carried_text (loads message)) as [[| | | |t| |]|];
      try (destruct H as (_ & -> & _); apply prefix_refl).
    destruct H as (_ & _ & -> & _). apply merged_prefix.
Qed.

(** Receiving the same message twice in a row changes the two texts no
    more than receiving it once: a text is appended to the transcript at
    most once. *)
Theorem repeated_result_idempotent (now1 now2 : Q) (message : string)
    (c : ASRClient) :
  let c1 := handle_result loads now1 message c in
  let c2 := handle_result loads now2 message c1 in
  accumulated_text c2 = accumulated_text c1 /\ current_text c2 = current_text c1.
Proof.
  intros c1 c2.
  pose proof (handle_result_effect now1 message c) as H1.
  pose proof (handle_result_effect now2 message c1) as H2.
  simpl in H1, H2. fold c1 in H1. fold c1 c2 in H2.
  destruct (carried_text (loads message)) as [[| | | |t| |]|];
    try (destruct H1 as (Hc1 & Ha1 & _), H2 as (Hc2 & Ha2 & _); split; congruence).
  destruct H1 as (_ & Hc1 & Ha1 & _), H2 as (_ & Hc2 & Ha2 & _).
  split; [|congruence]. rewrite Ha2, Ha1. apply merged_again.
Qed.

(** Every message prints at most one screen, and a screen is printed
    only for a non-empty string text: it shows that text, which is the
    current text, together with the accumulated text as just updated,
    and that accumulated text contains the text shown. *)
Theorem displayed_frame_is_current (now : Q) (message : string) (c : ASRClient) :
  let c' := handle_result loads now message c in
  screens c' = screens c \/
  exists t, t <> "" /\
    current_text c' = PStr t /\
    contains t (accumulated_text c') = true /\
    screens c' = screens c ++
      [mkScreen (PStr t) (Some (accumulated_text c'))
         (if Qle_bool (session_start_time c) 0 then None
          else Some (now - session_start_time c)%Q)].
Proof.
  intros c'. pose proof (handle_result_effect now message c) as H.
  simpl in H. fold c' in H.
  destruct (carried_text (loads message)) as [[| | | |t| |]|];
    try (left; by destruct H as (_ & _ & ? & _));
    try (left; by destruct H as (_ & _ & ?)).
  destruct H as (Ht & Hcur & Hacc & Hscr). right. exists t.
  rewrite Hacc. repeat split; try done. apply merged_contains.
Qed.

(** A truthy "text" that is not a string (a number, a list, ...) is
    stored as the current text before [endswith] rejects it: the
    transcript and the screens stay as they were and the [TypeError] is
    logged. *)
Theorem non_string_text_is_kept_but_not_merged (now : Q) (message : string)
    (d : list (string * pyval)) (v : pyval) (c : ASRClient) :
  loads message = Ok (PDict d) ->
  dict_in "error" d = false ->
  dict_lookup "text" d = Some v ->
  truthy v = true ->
  is_str v = false ->
  let c' := handle_result loads now message c in
  current_text c' = v /\
  accumulated_text c' = accumulated_text c /\
  screens c' = screens c /\
  client_log c' = client_log c ++
    [HandlingError
       (mkExn TypeError
          ("endswith first arg must be str or a tuple of str, not "
           +:+ type_name v))].
Proof.
  intros Hm Herr Htext Htruthy Hstr c'.
  pose proof (handle_result_effect now message c) as H. simpl in H. fold c' in H.
  unfold carried_text in H. rewrite Hm, Herr in H.
  unfold dict_in, dict_get in H. rewrite Htext, Htruthy in H.
  destruct v; try done.
Qed.

(** A message that carries no text for the aggregator (it does not
    decode, or is not a dict, or has an "error" key, or has no truthy
    "text") is skipped: dropping it from what the connection delivers
    changes neither the final transcript nor the final current text. *)
Theorem skipped_results_do_not_matter (pre post : list (Q * string))
    (now : Q) (message : string) (c : ASRClient) :
  carried_text (loads message) = None ->
  let c1 := receive_results loads (pre ++ (now, message) :: post) c in
  let c2 := receive_results loads (pre ++ post) c in
  accumulated_text c1 = accumulated_text c2 /\ current_text c1 = current_text c2.
Proof.
  intros Hnone.
  assert (Hext : forall rest a b,
             accumulated_text a = accumulated_text b ->
             current_text a = current_text b ->
             accumulated_text (receive_results loads rest a)
             = accumulated_text (receive_results loads rest b) /\
             current_text (receive_results loads rest a)
             = current_text (receive_results loads rest b)).
  { induction rest as [|[t m] rest IH]; intros a b Hacc Hcur; [done|].
    simpl. apply IH.
    - pose proof (handle_result_effect t m a) as Ha.
      pose proof (handle_result_effect t m b) as Hb. simpl in Ha, Hb.
      destruct (carried_text (loads m)) as [[| | | |x| |]|];
        try (destruct Ha as (_ & -> & _), Hb as (_ & -> & _); exact Hacc).
      destruct Ha as (_ & _ & -> & _), Hb as (_ & _ & -> & _). by rewrite Hacc.
    - pose proof (handle_result_effect t m a) as Ha.
      pose proof (handle_result_effect t m b) as Hb. simpl in Ha, Hb.
      destruct (carried_text (loads m)) as [[| | | |x| |]|];
        try (destruct Ha as (-> & _), Hb as (-> & _); done).
      destruct Ha as (_ & -> & _), Hb as (_ & -> & _). done. }
  assert (Happ : forall l1 l2 a,
             receive_results loads (l1 ++ l2) a
             = receive_results loads l2 (receive_results loads l1 a)).
  { induction l1 as [|[t m] l1 IH]; intros l2 a; [done|]. simpl. apply IH. }
  intros c1 c2. unfold c1, c2. rewrite !Happ. simpl.
  pose proof (handle_result_effect now message (receive_results loads pre c)) as H.
  simpl in H. rewrite Hnone in H. destruct H as (Hcur & Hacc & _).
  by apply Hext.
Qed.
End Transcript.

(** The two results the server sends without a recognition (the empty
    result of a flush on an empty buffer, and the error result of a
    failed recognition), once decoded by the client, change neither its
    texts nor its screens. *)
Theorem fallback_results_leave_transcript (loads : string -> res pyval)
    (now : Q) (message msg : string) (c : ASRClient) :
  loads message = Ok result_empty \/ loads message = Ok (result_error msg) ->
  let c' := handle_result loads now message c in
  current_text c' = current_text c /\
  accumulated_text c' = accumulated_text c /\
  screens c' = screens c.
Proof.
  intros Hm c'. pose proof (handle_result_effect loads now message c) as H.
  simpl in H. fold c' in H.
  destruct Hm as [Hm|Hm]; rewrite Hm in H; exact H.
Qed.

(** ** Recording control *)





Section StopAndFlush.
Variable E : env.

(** Client and server together. When [stop_recording] runs on a live
    recording of a connected client whose stream can be stopped and
    whose [eof] is accepted for sending, and the server decodes that
    message as [{"type": "eof"}]: on a buffer of whole samples, over a
    connection that accepts the reply, the server dispatches the whole
    buffer once, sends one result back and empties the buffer; on a
    buffer with an odd number of bytes it raises [ValueError] instead,
    sends nothing and keeps the buffer. *)
Theorem client_stop_flushes_server (c : ASRClient) (client_id : Z)
    (s : server) (sc : client_data) :
  is_recording c = true ->
  json_loads E eof_message = Ok (PDict [("type", PStr "eof")]) ->
  clients s !! client_id = Some sc ->
  let sent := snd (stop_recording true true true c) in
  (Nat.Even (length (audio_buffer sc)) ->
   (forall r, send_ok E r = true) ->
   exists result log,
     message_loop E client_id (WsText <$> sent) s
     = (Ok tt,
        mkServer (<[client_id := mkClient [] (sample_rate sc)]> (clients s))
                 (events s ++ [EvDispatch client_id (audio_buffer sc) (sample_rate sc)]
                           ++ log ++ [EvSend client_id result])) /\
     forallb is_error_event log = true) /\
  (Nat.Odd (length (audio_buffer sc)) ->
   message_loop E client_id (WsText <$> sent) s
   = (Raise (mkExn ValueError "buffer size must be a multiple of element size"),
      mkServer (clients s)
               (events s ++ [EvDispatch client_id (audio_buffer sc) (sample_rate sc)]))).
Proof.
  intros Hrec Hloads Hsc sent.
  assert (Hout : sent = [eof_message]).
  { unfold sent, stop_recording. rewrite Hrec. simpl.
    by destruct (has_stream c). }
  rewrite Hout. change (WsText <$> [eof_message]) with [WsText eof_message].
  rewrite message_loop_cons.
  rewrite (handle_eof E client_id s eof_message _ Hloads eq_refl).
  split.
  - intros Heven Hsend.
    destruct (recognize_audio_even E client_id s sc Hsc Heven)
      as (result & log & Hra & Hlog & _).
    exists result, log. split; [|exact Hlog].
    rewrite (recognize_and_reply_ok E _ _ _ _ _ Hsc Hra eq_refl (Hsend result)).
    simpl. by rewrite <- !app_assoc.
  - intros [n Hn].
    assert (Hodd : audio_to_float32 (audio_buffer sc) = None).
    { unfold audio_to_float32. by rewrite (frombuffer_int16_odd n _ Hn). }
    unfold recognize_and_reply.
    by rewrite (bind_raise _ _ _ _ _ (recognize_audio_odd E _ _ _ Hsc Hodd)).
Qed.
End StopAndFlush.

(** ** Framing and sample conversion *)

(** Frames are concatenated, not delimited: cutting the audio at a
    sample boundary and decoding the pieces gives the samples of the
    whole, in order; and the whole decodes exactly when the second piece
    does. *)
Theorem framing_is_transparent (b1 b2 : list byte) :
  Nat.Even (length b1) ->
  exists samples1,
    frombuffer_int16 b1 = Some samples1 /\
    frombuffer_int16 (b1 ++ b2)
    = match frombuffer_int16 b2 with
      | Some samples2 => Some (samples1 ++ samples2)
      | None => None
      end.
Proof.
  intros [n Hn]. revert b1 Hn.
  induction n as [|n IH]; intros b1 Hn.
  - destruct b1; [|discriminate]. exists []. split; [reflexivity|].
    simpl. by destruct (frombuffer_int16 b2).
  - destruct b1 as [|lo [|hi rest]]; try (simpl in Hn; lia).
    destruct (IH rest) as (samples & Hrest & Happ); [simpl in Hn; lia|].
    exists (int16_le lo hi :: samples). split; [simpl; by rewrite Hrest|].
    change ((lo :: hi :: rest) ++ b2) with (lo :: hi :: (rest ++ b2)).
    simpl. rewrite Happ. by destruct (frombuffer_int16 b2).
Qed.

(** The conversion to float loses nothing: two different 16-bit samples
    never give the same float. *)
Theorem sample_conversion_injective (s1 s2 : Z) :
  -32768 <= s1 <= 32767 ->
  -32768 <= s2 <= 32767 ->
  sample_to_float s1 = sample_to_float s2 ->
  s1 = s2.
Proof.
  intros H1 H2 Heq.
  destruct (sample_to_float_exact s1 H1) as (q1 & Hq1 & Hv1 & _).
  destruct (sample_to_float_exact s2 H2) as (q2 & Hq2 & Hv2 & _).
  rewrite Heq, Hq2 in Hq1. inversion Hq1; subst q2.
  assert (Hs : Qeq (s1 # 32768) (s2 # 32768)).
  { rewrite <- Hv1, <- Hv2. reflexivity. }
  unfold Qeq in Hs. simpl in Hs. lia.
Qed.

(** * Concrete runs of the further properties *)

Lemma recognition_result_witness :
  exists s',
    recognize_audio segmented_env 7 (session_with [x00; x80])
    = (Ok (PDict [("text", PStr "ok");
                  ("timestamps",
                   PList [PDict [("text", PStr "o"); ("start", PInt 0);
                                 ("end", PInt 120)]])]), s') /\
    clients s' = clients (session_with [x00; x80]).
Proof.
  exact (recognition_result segmented_env 7 (session_with [x00; x80])
           (mkClient [x00; x80] (PInt 16000)) [sample_to_float (-32768)]
           segmented_answer 2 eq_refl ltac:(discriminate) eq_refl eq_refl eq_refl).
Defined.

(** A timestamp given as a string is indexed by character: "é" has no
    second character, so the segment is dropped; "é1" gives start "é"
    and end "1". *)
Example string_timestamps_by_character :
  entry_of_segment (PDict [("text", PStr "k"); ("timestamp", PStr "é")]) = None /\
  entry_of_segment (PDict [("text", PStr "k"); ("timestamp", PStr "é1")])
  = Some (PDict [("text", PStr "k"); ("start", PStr "é"); ("end", PStr "1")]).
Proof. vm_compute. split; reflexivity. Qed.

Lemma eof_flushes_buffer_witness :
  exists result log,
    handle_message ok_env 7 (WsText eof_message) (session_with [x00; x80])
    = (Ok tt,
       mkServer (<[7 := mkClient [] (PInt 16000)]> (clients (session_with [x00; x80])))
                (events (session_with [x00; x80])
                 ++ [EvDispatch 7 [x00; x80] (PInt 16000)]
                 ++ log ++ [EvSend 7 result])) /\
    forallb is_error_event log = true.
Proof.
  destruct (eof_flushes_buffer ok_env 7 (session_with [x00; x80])
              (mkClient [x00; x80] (PInt 16000)) eof_message [("type", PStr "eof")]
              eq_refl eq_refl eq_refl ltac:(by exists 1%nat) ltac:(by intros))
    as (result & log & H1 & H2 & _).
  by exists result, log.
Defined.

Lemma config_sets_sample_rate_witness :
  handle_message ok_env 7 (WsText config_message) (session_with [x00; x80])
  = (Ok tt,
     mkServer (<[7 := mkClient [x00; x80] (PInt 16000)]>
                 (clients (session_with [x00; x80])))
              []).
Proof.
  exact (config_sets_sample_rate ok_env 7 (session_with [x00; x80])
           (mkClient [x00; x80] (PInt 16000)) config_message
           [("type", PStr "config"); ("sample_rate", PInt 16000)]
           eq_refl eq_refl eq_refl).
Defined.

Lemma unknown_control_is_skipped_witness :
  message_loop wide_env 7
    ([WsBinary [x00; x80]] ++ WsText ping_message :: [WsText eof_message])
    (session_with [])
  = message_loop wide_env 7 ([WsBinary [x00; x80]] ++ [WsText eof_message])
      (session_with []).
Proof.
  exact (proj1 (unknown_control_is_skipped wide_env 7 [WsBinary [x00; x80]]
                  [WsText eof_message] ping_message [("type", PStr "ping")]
                  (session_with []) eq_refl eq_refl eq_refl)).
Defined.

Lemma non_object_control_ends_session_witness :
  handle_message wide_env 7 (WsText "5") (session_with [x00; x80])
  = (Raise (mkExn AttributeError "'int' object has no attribute 'get'"),
     session_with [x00; x80]) /\
  process_audio wide_env 7 ([] ++ WsText "5" :: [WsText eof_message]) empty_server
  = process_audio wide_env 7 ([] ++ [WsText "5"]) empty_server.
Proof.
  pose proof (non_object_control_ends_session wide_env 7 empty_server
                [] [WsText eof_message] "5" (PInt 5) eq_refl eq_refl) as H.
  exact (conj (proj1 H (session_with [x00; x80])) (proj1 (proj2 H))).
Defined.

Lemma odd_buffer_dispatch_fails_witness :
  recognize_and_reply ok_env 7 (session_with [x01])
  = (Raise (mkExn ValueError "buffer size must be a multiple of element size"),
     mkServer (clients (session_with [x01])) [EvDispatch 7 [x01] (PInt 16000)]).
Proof.
  exact (odd_buffer_dispatch_fails ok_env 7 (session_with [x01])
           (mkClient [x01] (PInt 16000)) eq_refl ltac:(by exists 0%nat)).
Defined.

Lemma unsent_reply_ends_session_witness :
  process_audio refusing_env 7 ([] ++ WsText eof_message :: [WsBinary [x01]])
    empty_server
  = mkServer (delete 7 (clients (register 7 empty_server)))
             [EvDispatch 7 [] (PInt 16000)].
Proof.
  exact (proj2 (proj2
           (unsent_reply_ends_session refusing_env 7 empty_server
              (register 7 empty_server)
              (mkServer (clients (register 7 empty_server))
                        [EvDispatch 7 [] (PInt 16000)])
              [] [WsBinary [x01]] eof_message [("type", PStr "eof")] result_empty
              eq_refl eq_refl eq_refl eq_refl eq_refl))).
Defined.

Lemma session_leaves_registry_witness :
  clients (snd (message_loop ok_env 7 [WsBinary [x00; x80]; WsText eof_message]
                  (mkServer {[ 7 := mkClient [] (PInt 16000);
                               8 := mkClient [x01] (PInt 8000) ]} [])))
    !! 8
  = Some (mkClient [x01] (PInt 8000)).
Proof.
  rewrite (proj1 (session_leaves_registry ok_env 7
                    [WsBinary [x00; x80]; WsText eof_message]
                    (mkServer {[ 7 := mkClient [] (PInt 16000);
                                 8 := mkClient [x01] (PInt 8000) ]} []))
             8 ltac:(discriminate)).
  reflexivity.
Defined.

Lemma buffer_within_threshold_witness :
  exists c,
    clients (mkServer (<[7 := mkClient [x00; x80] (PInt 16000)]>
                         (clients (register 7 empty_server))) []) !! 7 = Some c /\
    (Ok tt = Ok tt -> Z.of_nat (length (audio_buffer c)) <= 32000).
Proof.
  exact (buffer_within_threshold ok_env 7 [WsBinary [x00; x80]] empty_server
           (mkServer (<[7 := mkClient [x00; x80] (PInt 16000)]>
                        (clients (register 7 empty_server))) [])
           (Ok tt) eq_refl).
Defined.

Lemma replies_match_dispatches_witness :
  exists l,
    events (mkServer (<[7 := mkClient [] (PInt 16000)]>
                        (<[7 := mkClient [x00; x80] (PInt 16000)]>
                           (clients (session_with []))))
              [EvDispatch 7 [x00; x80] (PInt 16000);
               EvSend 7 (PDict [("text", PStr "ok"); ("timestamps", PList [])])])
    = events (session_with []) ++ l /\
    (count_events is_send l <= count_events is_dispatch l)%nat /\
    (count_events is_dispatch l <= count_events is_send l + 1)%nat /\
    (count_events is_dispatch l <= length [WsBinary [x00; x80]; WsText eof_message])%nat /\
    (Ok tt = Ok tt -> count_events is_send l = count_events is_dispatch l).
Proof.
  exact (replies_match_dispatches ok_env 7 [WsBinary [x00; x80]; WsText eof_message]
           (session_with []) _ (Ok tt) eq_refl).
Defined.

Lemma non_string_text_is_kept_but_not_merged_witness :
  let c' := handle_result (table_loads odd_results_table) 2%Q "{number}" paused_client in
  current_text c' = PInt 5 /\
  accumulated_text c' = "hello" /\
  screens c' = [] /\
  client_log c' =
    [HandlingError
       (mkExn TypeError "endswith first arg must be str or a tuple of str, not int")].
Proof.
  exact (non_string_text_is_kept_but_not_merged (table_loads odd_results_table) 2%Q
           "{number}" [("text", PInt 5)] (PInt 5) paused_client
           eq_refl eq_refl eq_refl eq_refl eq_refl).
Defined.

Lemma skipped_results_do_not_matter_witness :
  let run := receive_results (table_loads transcript_table) in
  accumulated_text
    (run ([(1%Q, text_message "hello")]
          ++ (2%Q, error_message "hello" "boom") :: [(3%Q, text_message "world")])
         new_client)
  = accumulated_text
      (run ([(1%Q, text_message "hello")] ++ [(3%Q, text_message "world")])
           new_client).
Proof.
  exact (proj1 (skipped_results_do_not_matter (table_loads transcript_table)
                  [(1%Q, text_message "hello")] [(3%Q, text_message "world")]
                  2%Q (error_message "hello" "boom") new_client eq_refl)).
Defined.

Lemma fallback_results_leave_transcript_witness :
  let c' := handle_result (table_loads odd_results_table) 2%Q "{empty}" paused_client in
  current_text c' = PStr "hello" /\
  accumulated_text c' = "hello" /\
  screens c' = [].
Proof.
  exact (fallback_results_leave_transcript (table_loads odd_results_table) 2%Q
           "{empty}" "" paused_client (or_introl eq_refl)).
Defined.


(** The run above: [connect] sends the config message, the first
    recording is stopped by "S" with one [eof], and the second "s" fails
    to open the device, which ends the loop with the exception. *)
Example main_run :
  main Connected 1%Q true
    [mkCommand "S" 2%Q true true true; mkCommand "x" 3%Q true true true;
     mkCommand "s" 4%Q false true true; mkCommand "q" 5%Q true true true]
    true true new_client
  = (Raise (mkExn OSError "cannot open input stream"),
     mkASRClient false false (PStr "") "" 4%Q [] [],
     [config_message; eof_message]).
Proof. vm_compute. reflexivity. Qed.

(** A stream that cannot be stopped leaves the client recording, and no
    [eof] is sent. *)
Example main_run_stuck_stream :
  main Connected 1%Q true [mkCommand "q" 2%Q true true true] false true new_client
  = (Raise (mkExn OSError "stream cannot be stopped"),
     mkASRClient true true (PStr "") "" 1%Q [] [],
     [config_message]).
Proof. vm_compute. reflexivity. Qed.

Lemma client_stop_flushes_server_witness :
  (exists result log,
     message_loop ok_env 7
       (WsText <$> snd (stop_recording true true true recording_client))
       (session_with [x00; x80])
     = (Ok tt,
        mkServer (<[7 := mkClient [] (PInt 16000)]> (clients (session_with [x00; x80])))
                 (events (session_with [x00; x80])
                  ++ [EvDispatch 7 [x00; x80] (PInt 16000)]
                  ++ log ++ [EvSend 7 result])) /\
     forallb is_error_event log = true).
Proof.
  exact (proj1 (client_stop_flushes_server ok_env recording_client 7
                  (session_with [x00; x80]) (mkClient [x00; x80] (PInt 16000))
                  eq_refl eq_refl eq_refl)
           ltac:(by exists 1%nat) ltac:(by intros)).
Defined.

Lemma framing_is_transparent_witness :
  exists samples1,
    frombuffer_int16 [x00; x80] = Some samples1 /\
    frombuffer_int16 ([x00; x80] ++ [xff; x7f])
    = match frombuffer_int16 [xff; x7f] with
      | Some samples2 => Some (samples1 ++ samples2)
      | None => None
      end.
Proof.
  exact (framing_is_transparent [x00; x80] [xff; x7f] ltac:(by exists 1%nat)).
Defined.

Lemma sample_conversion_injective_witness : 5 = 5.
Proof.
  exact (sample_conversion_injective 5 5 ltac:(lia) ltac:(lia) eq_refl).
Defined.
